(** * OS City V2: the concurrency core

    A shallow embedding of the coordination layer of the simulation:
    - [src/core/buffer.py]      the bounded producer/consumer buffer,
    - [src/data/database.py]    the asynchronous event sink ([SqlLogger.log]),
    - [src/subsystems/base.py]  the periodic tick loop ([Subsystem.run]),
    - [src/core/kernel.py]      the watchdog ([CitySimulation._watchdog_loop]).

    Python integers are unbounded and are modelled by [Z].  The float
    seconds returned by [time.time()] and [time.perf_counter()] are modelled
    by the rationals [Q]: the comparisons of the code are exact, the rounding
    of its subtractions and multiplications is not modelled. *)

From Stdlib Require Import ZArith QArith List String Bool Lia.
From Stdlib Require Import DecimalString.
Import ListNotations.

Local Open Scope Z_scope.

Module Buffer.

(** ** [BoundedBuffer.stats]

    The dictionary is created with five keys and no key is ever added or
    removed; every access is [self.stats[k] += 1] on one of them.  A record
    with one field per key is therefore the dictionary. *)

Record Stats : Type := mkStats {
  puts            : Z;
  gets            : Z;
  waits_for_space : Z;
  waits_for_item  : Z;
  drop_count      : Z
}.

Definition stats0 : Stats := mkStats 0 0 0 0 0.

Definition incr_puts (s : Stats) : Stats :=
  mkStats (puts s + 1) (gets s) (waits_for_space s) (waits_for_item s) (drop_count s).
Definition incr_gets (s : Stats) : Stats :=
  mkStats (puts s) (gets s + 1) (waits_for_space s) (waits_for_item s) (drop_count s).
Definition incr_waits_for_space (s : Stats) : Stats :=
  mkStats (puts s) (gets s) (waits_for_space s + 1) (waits_for_item s) (drop_count s).
Definition incr_waits_for_item (s : Stats) : Stats :=
  mkStats (puts s) (gets s) (waits_for_space s) (waits_for_item s + 1) (drop_count s).
Definition incr_drop_count (s : Stats) : Stats :=
  mkStats (puts s) (gets s) (waits_for_space s) (waits_for_item s) (drop_count s + 1).

(** ** Results of a critical section

    [os_trace], the [uuid] of an operation and the wait times measured for
    the trace only print; they do not reach the buffer and are left out.

    Every method body runs under [with self._lock:].  [Condition.wait]
    releases the lock, parks the caller and re-acquires the lock before it
    returns, so a method is a chain of critical sections: the one entered by
    the call and one more for every return of [wait].  A critical section
    ends in a [return], a [raise] or a [wait]. *)

Inductive exn : Type :=
| ValueError (msg : string)
| StopIteration (msg : string).

Inductive cond : Type := _not_full | _not_empty.

Inductive signal : Type :=
| notify (c : cond)
| notify_all (c : cond).

Inductive outcome (R : Type) : Type :=
| Return (r : R)
| Raise (e : exn)
| Wait (c : cond) (timeout : option Q).

Arguments Return {R} r.
Arguments Raise {R} e.
Arguments Wait {R} c timeout.

Section BoundedBuffer.

Context {T : Type}.

Record BoundedBuffer : Type := mkBuffer {
  capacity   : Z;
  name       : string;
  _buffer    : list T;
  _closed    : bool;
  stats      : Stats;
  op_counter : Z
}.

(** [__init__] *)
Definition init (capacity : Z) (name : string) : BoundedBuffer :=
  mkBuffer capacity name [] false stats0 0.

Definition set_buffer (b : BoundedBuffer) (q : list T) : BoundedBuffer :=
  mkBuffer (capacity b) (name b) q (_closed b) (stats b) (op_counter b).
Definition set_closed (b : BoundedBuffer) (c : bool) : BoundedBuffer :=
  mkBuffer (capacity b) (name b) (_buffer b) c (stats b) (op_counter b).
Definition set_stats (b : BoundedBuffer) (s : Stats) : BoundedBuffer :=
  mkBuffer (capacity b) (name b) (_buffer b) (_closed b) s (op_counter b).
Definition set_op_counter (b : BoundedBuffer) (n : Z) : BoundedBuffer :=
  mkBuffer (capacity b) (name b) (_buffer b) (_closed b) (stats b) n.

(** [len(self._buffer)] *)
Definition len (b : BoundedBuffer) : Z := Z.of_nat (List.length (_buffer b)).

(** What a critical section leaves behind: the buffer, how the section
    ended, and the [notify] calls it made, in order. *)
Record critical (R : Type) : Type := mkSection {
  after   : BoundedBuffer;
  ended   : outcome R;
  signals : list signal
}.
Arguments mkSection {R} _ _ _.
Arguments after {R} _.
Arguments ended {R} _.
Arguments signals {R} _.

Definition closed_msg (b : BoundedBuffer) : string :=
  ("Buffer " ++ name b ++ " is closed")%string.

(** *** [put]

    [put_loop] is the head of [while len(self._buffer) >= self.capacity]:
    either the loop body runs up to [self._not_full.wait], or the loop is
    left and the item is appended. *)
Definition put_loop (b : BoundedBuffer) (item : T) (timeout : option Q)
  : critical bool :=
  if len b >=? capacity b then
    mkSection (set_stats b (incr_waits_for_space (stats b)))
              (Wait _not_full timeout) []
  else
    mkSection (set_stats (set_buffer b (_buffer b ++ [item]))
                         (incr_puts (stats b)))
              (Return true) [notify _not_empty].

(** From the call to the first [wait], [raise] or [return]. *)
Definition put (b : BoundedBuffer) (item : T) (timeout : option Q)
  : critical bool :=
  let b := set_op_counter b (op_counter b + 1) in
  if _closed b then mkSection b (Raise (ValueError (closed_msg b))) []
  else put_loop b item timeout.

(** From a return of [self._not_full.wait], whose value is [success], to
    the next [wait], [raise] or [return]. *)
Definition put_wake (b : BoundedBuffer) (item : T) (timeout : option Q)
                    (success : bool) : critical bool :=
  if _closed b then mkSection b (Raise (ValueError (closed_msg b))) []
  else if negb success then mkSection b (Return false) []
  else put_loop b item timeout.

(** *** [get]

    [get_loop] is the head of [while not self._buffer]. *)
Definition get_loop (b : BoundedBuffer) (timeout : option Q)
  : critical (option T) :=
  match _buffer b with
  | [] =>
      if _closed b then
        mkSection b (Raise (StopIteration "Buffer closed and empty")) []
      else
        mkSection (set_stats b (incr_waits_for_item (stats b)))
                  (Wait _not_empty timeout) []
  | item :: rest =>
      mkSection (set_stats (set_buffer b rest) (incr_gets (stats b)))
                (Return (Some item)) [notify _not_full]
  end.

Definition get (b : BoundedBuffer) (timeout : option Q)
  : critical (option T) :=
  get_loop (set_op_counter b (op_counter b + 1)) timeout.

(** From a return of [self._not_empty.wait]; a timed-out wait makes [get]
    return [None]. *)
Definition get_wake (b : BoundedBuffer) (timeout : option Q)
                    (success : bool) : critical (option T) :=
  if negb success then mkSection b (Return None) []
  else get_loop b timeout.

(** *** [try_put], [close], [qsize], [is_full]: one critical section each,
    none of them waits. *)
Definition try_put (b : BoundedBuffer) (item : T) : critical bool :=
  if _closed b then mkSection b (Return false) []
  else if len b >=? capacity b then
    mkSection (set_stats b (incr_drop_count (stats b))) (Return false) []
  else
    mkSection (set_stats (set_buffer b (_buffer b ++ [item]))
                         (incr_puts (stats b)))
              (Return true) [notify _not_empty].

Definition close (b : BoundedBuffer) : critical unit :=
  mkSection (set_closed b true) (Return tt)
            [notify_all _not_empty; notify_all _not_full].

Definition qsize (b : BoundedBuffer) : critical Z :=
  mkSection b (Return (len b)) [].

Definition is_full (b : BoundedBuffer) : critical bool :=
  mkSection b (Return (len b >=? capacity b)) [].

End BoundedBuffer.

Arguments BoundedBuffer T : clear implicits.
Arguments critical T R : clear implicits.
Arguments mkSection {T R} _ _ _.
Arguments after {T R} _.
Arguments ended {T R} _.
Arguments signals {T R} _.

(** ** Threads around one buffer

    [threading.Lock] serialises the critical sections, so an execution of any
    number of producer and consumer threads is a sequence of moves: a thread
    that is not parked makes a [Call]; a thread parked in [wait] makes a
    [Resume], the return of its [wait] with value [success].

    Of [threading.Condition] only its contract is used: [wait] returns [True]
    only if the condition was notified after the caller parked, and returns
    [False] only if a timeout was given.  Which of several waiters a [notify]
    picks is left open: every waiter of the condition may be the one. *)

Definition tid : Type := nat.

Definition cond_eqb (c d : cond) : bool :=
  match c, d with
  | _not_full, _not_full | _not_empty, _not_empty => true
  | _, _ => false
  end.

Definition signalled (c : cond) (sigs : list signal) : bool :=
  existsb (fun sg => match sg with
                     | notify d | notify_all d => cond_eqb c d
                     end) sigs.

Definition has_timeout (timeout : option Q) : bool :=
  match timeout with Some _ => true | None => false end.

Section Threads.

Context {T : Type}.

Inductive waiter : Type :=
| producer (item : T) (timeout : option Q) (notified : bool)
| consumer (timeout : option Q) (notified : bool).

Definition waits_on (w : waiter) : cond :=
  match w with
  | producer _ _ _ => _not_full
  | consumer _ _ => _not_empty
  end.

Definition deliver (sigs : list signal) (w : waiter) : waiter :=
  if signalled (waits_on w) sigs then
    match w with
    | producer item timeout _ => producer item timeout true
    | consumer timeout _ => consumer timeout true
    end
  else w.

Record System : Type := mkSystem {
  buf    : BoundedBuffer T;
  parked : tid -> option waiter
}.

Definition boot (capacity : Z) (name : string) : System :=
  mkSystem (init capacity name) (fun _ => None).

Inductive call : Type :=
| c_put (item : T) (timeout : option Q)
| c_get (timeout : option Q)
| c_try_put (item : T)
| c_close
| c_qsize
| c_is_full.

Inductive move : Type :=
| Call (t : tid) (c : call)
| Resume (t : tid) (success : bool).

(** What a thread sees when its critical section ends. *)
Inductive observation : Type :=
| ob_put (t : tid) (item : T) (o : outcome bool)
| ob_get (t : tid) (o : outcome (option T))
| ob_try_put (t : tid) (item : T) (o : outcome bool)
| ob_close (t : tid)
| ob_qsize (t : tid) (o : outcome Z)
| ob_is_full (t : tid) (o : outcome bool).

(** The section of thread [t] is over: the buffer is the one it leaves,
    [t] is parked as [w] says, and its signals reach the other waiters. *)
Definition settle {R : Type} (s : System) (t : tid) (r : critical T R)
                  (w : option waiter) : System :=
  mkSystem (after r)
           (fun u => if Nat.eqb u t then w
                     else option_map (deliver (signals r)) (parked s u)).

Definition park_put {R : Type} (item : T) (o : outcome R) : option waiter :=
  match o with
  | Wait _ timeout => Some (producer item timeout false)
  | _ => None
  end.

Definition park_get {R : Type} (o : outcome R) : option waiter :=
  match o with
  | Wait _ timeout => Some (consumer timeout false)
  | _ => None
  end.

Definition may_resume (timeout : option Q) (notified success : bool) : bool :=
  if success then notified else has_timeout timeout.

(** One move.  A move that is not possible (a call by a parked thread, a
    resume of a thread that is not parked or whose [wait] cannot return
    that value) changes nothing and is observed by nobody. *)
Definition sys_step (m : move) (s : System) : System * option observation :=
  match m with
  | Call t c =>
      match parked s t with
      | Some _ => (s, None)
      | None =>
          match c with
          | c_put item timeout =>
              let r := put (buf s) item timeout in
              (settle s t r (park_put item (ended r)),
               Some (ob_put t item (ended r)))
          | c_get timeout =>
              let r := get (buf s) timeout in
              (settle s t r (park_get (ended r)), Some (ob_get t (ended r)))
          | c_try_put item =>
              let r := try_put (buf s) item in
              (settle s t r None, Some (ob_try_put t item (ended r)))
          | c_close =>
              let r := close (buf s) in
              (settle s t r None, Some (ob_close t))
          | c_qsize =>
              let r := qsize (buf s) in
              (settle s t r None, Some (ob_qsize t (ended r)))
          | c_is_full =>
              let r := is_full (buf s) in
              (settle s t r None, Some (ob_is_full t (ended r)))
          end
      end
  | Resume t success =>
      match parked s t with
      | None => (s, None)
      | Some (producer item timeout notified) =>
          if may_resume timeout notified success then
            let r := put_wake (buf s) item timeout success in
            (settle s t r (park_put item (ended r)),
             Some (ob_put t item (ended r)))
          else (s, None)
      | Some (consumer timeout notified) =>
          if may_resume timeout notified success then
            let r := get_wake (buf s) timeout success in
            (settle s t r (park_get (ended r)), Some (ob_get t (ended r)))
          else (s, None)
      end
  end.

Fixpoint sys_run (ms : list move) (s : System)
  : System * list observation :=
  match ms with
  | [] => (s, [])
  | m :: ms' =>
      let (s1, o) := sys_step m s in
      let (s2, os) := sys_run ms' s1 in
      (s2, match o with Some x => x :: os | None => os end)
  end.

(** The items accepted by the buffer and the items handed out by it, in
    the order of the observations. *)
Definition accepted1 (o : observation) : list T :=
  match o with
  | ob_put _ item (Return true) => [item]
  | ob_try_put _ item (Return true) => [item]
  | _ => []
  end.

Definition delivered1 (o : observation) : list T :=
  match o with
  | ob_get _ (Return (Some item)) => [item]
  | _ => []
  end.

Definition accepted (os : list observation) : list T := flat_map accepted1 os.
Definition delivered (os : list observation) : list T := flat_map delivered1 os.

Definition accepted_by (o : option observation) : list T :=
  match o with Some x => accepted1 x | None => [] end.

Definition delivered_by (o : option observation) : list T :=
  match o with Some x => delivered1 x | None => [] end.

(** The thread that makes a move. *)
Definition mover (m : move) : tid :=
  match m with Call t _ | Resume t _ => t end.

(** The observations of the two sections that signal [_not_full]: a [get]
    that hands out an item, which frees a place, and [close]. *)
Definition frees_or_closes (o : observation) : bool :=
  match o with
  | ob_get _ (Return (Some _)) => true
  | ob_close _ => true
  | _ => false
  end.

(** Every move leaves the buffer as it was or runs one critical section of
    one method on it. *)
Inductive critical_section (b : BoundedBuffer T) : BoundedBuffer T -> Prop :=
| cs_skip : critical_section b b
| cs_put item timeout : critical_section b (after (put b item timeout))
| cs_put_wake item timeout success :
    critical_section b (after (put_wake b item timeout success))
| cs_get timeout : critical_section b (after (get b timeout))
| cs_get_wake timeout success :
    critical_section b (after (get_wake b timeout success))
| cs_try_put item : critical_section b (after (try_put b item))
| cs_close : critical_section b (after (close b)).

End Threads.

Arguments waiter T : clear implicits.
Arguments System T : clear implicits.
Arguments call T : clear implicits.
Arguments move T : clear implicits.
Arguments observation T : clear implicits.

End Buffer.

(** ** [src/core/metrics.py]: the events *)

Module Metrics.

(** The values of a [payload: dict[str, Any]] that the core builds. *)
Inductive value : Type :=
| VStr (s : string)
| VFloat (q : Q)
| VInt (z : Z)
| VNone.

(** A payload is a dictionary literal; its keys are kept in the order in
    which they are written, the order [json.dumps] prints them in. *)
Definition payload : Type := list (string * value).

Inductive kind : Type :=
| TickEvent (tick_seq : Z) (latency_ms drift_ms work_time_ms : Q)
| LockEvent (lock_name : string) (wait_ms held_ms : Q) (context : string)
| QueueStatEvent (queue_name : string) (size capacity dropped : Z)
| MetricEvent (payload : payload).

(** The fields of the base class [LogEvent] and those of the subclass. *)
Record LogEvent : Type := mkEvent {
  run_id    : Z;
  subsystem : string;
  ts        : Q;
  ts_mono   : Q;
  body      : kind
}.

Definition is_tick (e : LogEvent) : bool :=
  match body e with TickEvent _ _ _ _ => true | _ => false end.

Definition drift_ms_of (e : LogEvent) : option Q :=
  match body e with TickEvent _ _ d _ => Some d | _ => None end.

Definition payload_of (e : LogEvent) : option payload :=
  match body e with MetricEvent p => Some p | _ => None end.

End Metrics.

(** ** [src/data/database.py]: the sink, as far as [log] touches it

    [_queue] is a [SimpleQueue[Optional[LogEvent]]]: [put] appends at the
    tail and never blocks or fails; [None] is the sentinel of [stop].  The
    writer thread and the SQLite file are not part of what [log] reads or
    writes. *)

Module Database.

Record SqlLogger : Type := mkLogger {
  db_path  : string;
  _queue   : list (option Metrics.LogEvent);
  _running : bool;
  run_id   : Z
}.

(** [__init__]; [now] is the value of [time.time()], [int] truncates. *)
Definition init (db_path : string) (now : Q) : SqlLogger :=
  mkLogger db_path [] false (Z.quot (Qnum now) (Zpos (Qden now))).

Definition start (l : SqlLogger) : SqlLogger :=
  mkLogger (db_path l) (_queue l) true (run_id l).

Definition stop (l : SqlLogger) : SqlLogger :=
  mkLogger (db_path l) (_queue l ++ [None]) false (run_id l).

(** [log]: the early [return] and the [put] both return [None] to the
    caller; no path raises. *)
Definition log (l : SqlLogger) (event : Metrics.LogEvent) : SqlLogger :=
  if negb (_running l) then l
  else mkLogger (db_path l) (_queue l ++ [Some event]) (_running l) (run_id l).

End Database.

(** ** The world of a worker thread

    [time.time()] and [time.perf_counter()] are read many times in a loop
    body and every read may give a new value, so a clock is the sequence of
    values its reads return together with the number of reads made. *)

Module Sim.

Record Clock : Type := mkClock {
  wall       : nat -> Q;
  wall_reads : nat;
  mono       : nat -> Q;
  mono_reads : nat
}.

Inductive warning : Type :=
| stalled (name : string) (time_since_tick : Q)
| buffer_full (name : string) (q_size : Z).

(** What the code of a thread can reach: [self.simulation.running],
    [self.simulation.logger], the modules [time] and [logging], and [env],
    everything else (the fields of a subclass, the buffers, the random
    generator), which only the work of a tick reads or writes. *)
Record World (E : Type) : Type := mkWorld {
  clock    : Clock;
  logger   : Database.SqlLogger;
  running  : bool;
  warnings : list warning;
  sleeps   : list Q;
  env      : E
}.

Arguments mkWorld {E} _ _ _ _ _ _.
Arguments clock {E} _.
Arguments logger {E} _.
Arguments running {E} _.
Arguments warnings {E} _.
Arguments sleeps {E} _.
Arguments env {E} _.

Definition M (E A : Type) : Type := World E -> A * World E.

Definition ret {E A : Type} (a : A) : M E A := fun w => (a, w).

Definition bind {E A B : Type} (c : M E A) (k : A -> M E B) : M E B :=
  fun w => let (a, w') := c w in k a w'.

Notation "x <- c ;; k" := (bind c (fun x => k))
  (at level 61, c at next level, right associativity).
Notation "c ;;; k" := (bind c (fun _ => k))
  (at level 61, right associativity).

(** [time.time()] *)
Definition time {E : Type} : M E Q := fun w =>
  let c := clock w in
  (wall c (wall_reads c),
   mkWorld (mkClock (wall c) (S (wall_reads c)) (mono c) (mono_reads c))
           (logger w) (running w) (warnings w) (sleeps w) (env w)).

(** [time.perf_counter()] *)
Definition perf_counter {E : Type} : M E Q := fun w =>
  let c := clock w in
  (mono c (mono_reads c),
   mkWorld (mkClock (wall c) (wall_reads c) (mono c) (S (mono_reads c)))
           (logger w) (running w) (warnings w) (sleeps w) (env w)).

(** [time.sleep(d)]: the time that passes shows in the later clock reads. *)
Definition sleep {E : Type} (d : Q) : M E unit := fun w =>
  (tt, mkWorld (clock w) (logger w) (running w) (warnings w)
               (sleeps w ++ [d]) (env w)).

(** [logger.warning(...)] of the module [logging] *)
Definition warn {E : Type} (x : warning) : M E unit := fun w =>
  (tt, mkWorld (clock w) (logger w) (running w) (warnings w ++ [x])
               (sleeps w) (env w)).

(** [self.simulation.logger.log(event)] *)
Definition log {E : Type} (event : Metrics.LogEvent) : M E unit := fun w =>
  (tt, mkWorld (clock w) (Database.log (logger w) event) (running w)
               (warnings w) (sleeps w) (env w)).

(** [self.simulation.logger.run_id] *)
Definition logger_run_id {E : Type} : M E Z :=
  fun w => (Database.run_id (logger w), w).

(** [self.simulation.running.is_set()] *)
Definition is_set {E : Type} : M E bool := fun w => (running w, w).

(** The constructor of an event: the two [default_factory] fields read the
    clocks, [ts] first. *)
Definition new_event {E : Type} (run_id : Z) (subsystem : string)
                     (k : Metrics.kind) : M E Metrics.LogEvent :=
  ts <- time ;;
  ts_mono <- perf_counter ;;
  ret (Metrics.mkEvent run_id subsystem ts ts_mono k).

(** [for x in xs: body(x)] *)
Fixpoint for_each {E A : Type} (xs : list A) (body : A -> M E unit)
  : M E unit :=
  match xs with
  | [] => ret tt
  | x :: xs' => body x ;;; for_each xs' body
  end.

(** [x > y] on floats *)
Definition Qgtb (x y : Q) : bool := negb (Qle_bool x y).

End Sim.

(** ** [src/subsystems/base.py]: the periodic worker *)

Module Base.

Import Sim.

Record Subsystem : Type := mkSubsystem {
  name         : string;
  interval     : Q;
  last_tick_ts : Q;
  tick_count   : Z
}.

(** [__init__] *)
Definition init {E : Type} (name : string) (interval : Q) : M E Subsystem :=
  now <- time ;;
  ret (mkSubsystem name interval now 0).

(** [log_metric] *)
Definition log_metric {E : Type} (self : Subsystem) (p : Metrics.payload)
  : M E unit :=
  rid <- logger_run_id ;;
  e <- new_event rid (name self) (Metrics.MetricEvent p) ;;
  log e.

(** [execute_tick] of the base class: [pass] *)
Definition execute_tick {E : Type} (self : Subsystem) : M E Subsystem :=
  ret self.

Section Run.

Context {E : Type}.

(** The [execute_tick] of the subclass; it returns, as those of the three
    subsystems do (they catch what the buffer raises). *)
Variable work : Subsystem -> M E Subsystem.

(** One pass through the body of [while self.simulation.running.is_set()].
    [next_tick_time] is the local variable of [run]. *)
Definition run_iteration (self : Subsystem) (next_tick_time : Q)
  : M E (Subsystem * Q) :=
  loop_start <- perf_counter ;;
  self <- work self ;;
  now <- time ;;
  let self := mkSubsystem (name self) (interval self) now (tick_count self) in
  let self := mkSubsystem (name self) (interval self) (last_tick_ts self)
                          (tick_count self + 1) in
  work_end <- perf_counter ;;
  let work_duration := ((work_end - loop_start) * 1000)%Q in
  let next_tick_time := (next_tick_time + interval self)%Q in
  t <- perf_counter ;;
  let sleep_duration := (next_tick_time - t)%Q in
  t <- perf_counter ;;
  let latency := ((t - loop_start) * 1000)%Q in
  t <- perf_counter ;;
  let drift := ((t - next_tick_time) * 1000)%Q in
  rid <- logger_run_id ;;
  e <- new_event rid (name self)
         (Metrics.TickEvent (tick_count self) latency drift work_duration) ;;
  log e ;;;
  (if Qgtb sleep_duration 0 then sleep sleep_duration
   else sleep (1 # 100)) ;;;
  ret (self, next_tick_time).

(** The [while] loop, for at most [fuel] passes. *)
Fixpoint run_loop (fuel : nat) (self : Subsystem) (next_tick_time : Q)
  : M E (Subsystem * Q) :=
  match fuel with
  | O => ret (self, next_tick_time)
  | S fuel' =>
      go <- is_set ;;
      if go then
        r <- run_iteration self next_tick_time ;;
        run_loop fuel' (fst r) (snd r)
      else ret (self, next_tick_time)
  end.

Definition run (fuel : nat) (self : Subsystem) : M E (Subsystem * Q) :=
  next_tick_time <- perf_counter ;;
  run_loop fuel self next_tick_time.

End Run.

End Base.

(** ** [src/core/kernel.py]: the watchdog *)

Module Kernel.

Import Sim.

(** The fields of [CitySimulation] that [_watchdog_loop] reads besides
    [running] and [logger], which are in the world. *)
Record CitySimulation (T : Type) : Type := mkSimulation {
  ev_buffer  : Buffer.BoundedBuffer T;
  subsystems : list Base.Subsystem
}.

Arguments mkSimulation {T} _ _.
Arguments ev_buffer {T} _.
Arguments subsystems {T} _.

(** [__init__]: [BoundedBuffer(capacity=10, name="EV_Charging_Queue")] and
    no subsystem before [bootstrap]. *)
Definition init (T : Type) : CitySimulation T :=
  mkSimulation (Buffer.init 10 "EV_Charging_Queue") [].

(** The literal [5.0] of [if time_since_tick > 5.0]. *)
Definition stall_threshold : Q := 5.

Definition stall_payload (name : string) (time_since_tick : Q)
  : Metrics.payload :=
  [ ("event"%string, Metrics.VStr "stall_detected");
    ("target"%string, Metrics.VStr name);
    ("duration"%string, Metrics.VFloat time_since_tick) ].

(** The test [now - s.last_tick_ts > 5.0] of the loop over the workers. *)
Definition is_stalled (now : Q) (s : Base.Subsystem) : bool :=
  Qgtb (now - Base.last_tick_ts s) stall_threshold.

(** The events of a list of workers that are handed to the sink: the
    payload of a stall event names the worker and carries the duration. *)
Definition stall_event_of (now : Q) (s : Base.Subsystem) : Metrics.kind :=
  Metrics.MetricEvent
    (stall_payload (Base.name s) (now - Base.last_tick_ts s)).

(** The body of [for s in self.subsystems]. *)
Definition check_subsystem {E : Type} (now : Q) (s : Base.Subsystem)
  : M E unit :=
  let time_since_tick := (now - Base.last_tick_ts s)%Q in
  if Qgtb time_since_tick stall_threshold then
    warn (stalled (Base.name s) time_since_tick) ;;;
    rid <- logger_run_id ;;
    e <- new_event rid "Kernel"
           (Metrics.MetricEvent (stall_payload (Base.name s) time_since_tick)) ;;
    log e
  else ret tt.

(** [# 2.Check Buffer state]: the warning when the queue is full and the
    queue statistics, logged in every period.  [qsize()] returns
    [len(self._buffer)] and leaves the buffer as it is. *)
Definition report_queue {E T : Type} (b : Buffer.BoundedBuffer T) : M E unit :=
  let q_size := Buffer.len b in
  (if q_size =? Buffer.capacity b then warn (buffer_full (Buffer.name b) q_size)
   else ret tt) ;;;
  rid <- logger_run_id ;;
  e <- new_event rid "Kernel"
         (Metrics.QueueStatEvent (Buffer.name b) q_size (Buffer.capacity b)
            (Buffer.drop_count (Buffer.stats b))) ;;
  log e.

(** One pass through the body of [while self.running.is_set()]. *)
Definition watchdog_period {E T : Type} (self : CitySimulation T) : M E unit :=
  sleep 2 ;;;
  now <- time ;;
  for_each (subsystems self) (check_subsystem now) ;;;
  report_queue (ev_buffer self).

(** The [while] loop, for at most [fuel] periods. *)
Fixpoint _watchdog_loop {E T : Type} (fuel : nat) (self : CitySimulation T)
  : M E unit :=
  match fuel with
  | O => ret tt
  | S fuel' =>
      go <- is_set ;;
      if go then watchdog_period self ;;; _watchdog_loop fuel' self
      else ret tt
  end.

End Kernel.

(** ** Concrete executions, used to exercise the statements below *)

Module Examples.

Import Buffer.

(** A producer fills a buffer of capacity 2 and parks on the third item; a
    consumer takes the oldest item, which notifies the producer; a third
    thread has an item dropped and a fourth closes the buffer. *)
Definition backpressure : list (move Z) :=
  [ Call 0%nat (c_put 10 (Some (1 # 5)));
    Call 0%nat (c_put 20 (Some (1 # 5)));
    Call 0%nat (c_put 30 (Some (1 # 5)));
    Call 2%nat (c_try_put 40);
    Call 1%nat (c_get (Some (1 # 20)));
    Resume 0%nat true;
    Call 3%nat c_close;
    Call 0%nat (c_put 50 (Some (1 # 5)));
    Call 1%nat (c_get (Some (1 # 20))) ].

(** A buffer of capacity 1 that holds one item. *)
Definition full_buffer : System Z :=
  fst (sys_run [Call 0%nat (c_put 10 None)] (boot 1 "EV_Charging_Queue")).

(** The same buffer after [close()]. *)
Definition closed_buffer : System Z :=
  fst (sys_run [Call 0%nat c_close] full_buffer).

(** Clocks that advance by one second, and by a quarter of a second, at
    every read. *)
Definition ticking : Sim.Clock :=
  Sim.mkClock (fun n => inject_Z (1000 + Z.of_nat n)) 0
              (fun n => (Z.of_nat n # 4)%Q) 0.

Definition sink : Database.SqlLogger :=
  Database.start (Database.init "v2_city.sqlite3" (1000 # 1)).

Definition world : Sim.World unit :=
  Sim.mkWorld ticking sink true [] [] tt.

Definition traffic : Base.Subsystem :=
  Base.mkSubsystem "Traffic" (1 # 2) (1000 # 1) 0.

(** A worker whose last tick is ten seconds old. *)
Definition energy : Base.Subsystem :=
  Base.mkSubsystem "Energy" (1 # 2) (990 # 1) 7.

Definition city : Kernel.CitySimulation Z :=
  Kernel.mkSimulation (buf full_buffer) [traffic; energy].

(** The work of a tick that logs one metric. *)
Definition reporting (self : Base.Subsystem) : Sim.M unit Base.Subsystem :=
  Sim.bind (Base.log_metric self [("cars"%string, Metrics.VInt 100)])
           (fun _ => Sim.ret self).

End Examples.

(** ** [src/data/database.py]: the writer thread

    The database is what the connection of the writer has written: every
    [cursor.execute("INSERT ...")] adds a row to the open transaction and
    [conn.commit()] makes the transaction durable.  The four tables are the
    rows of the four shapes.  [sqlite3] itself is assumed not to fail. *)

Module Writer.

Import Database.

Inductive row : Type :=
| ticks_row (run_id : Z) (subsystem : string) (seq : Z)
            (latency_ms drift_ms work_ms ts_mono : Q)
| locks_row (run_id : Z) (subsystem lock_name : string)
            (wait_ms held_ms : Q) (context : string) (ts_mono : Q)
| queue_stats_row (run_id : Z) (queue_name : string)
                  (size capacity dropped : Z) (ts_mono : Q)
| metrics_row (run_id : Z) (subsystem payload : string) (ts_mono : Q).

Record Connection : Type := mkConnection {
  committed : list row;
  pending   : list row
}.

(** [cursor.execute] of one [INSERT] *)
Definition execute (c : Connection) (r : row) : Connection :=
  mkConnection (committed c) (pending c ++ [r]).

(** [conn.commit()] *)
Definition commit (c : Connection) : Connection :=
  mkConnection (committed c ++ pending c) [].

(** [conn.close()]: an open transaction is not committed. *)
Definition close (c : Connection) : Connection :=
  mkConnection (committed c) [].

Definition is_ticks (r : row) : bool :=
  match r with ticks_row _ _ _ _ _ _ _ => true | _ => false end.
Definition is_locks (r : row) : bool :=
  match r with locks_row _ _ _ _ _ _ _ => true | _ => false end.
Definition is_queue_stats (r : row) : bool :=
  match r with queue_stats_row _ _ _ _ _ _ => true | _ => false end.
Definition is_metrics (r : row) : bool :=
  match r with metrics_row _ _ _ _ => true | _ => false end.

(** [SELECT * FROM <table>] on the durable state *)
Definition table (shape : row -> bool) (c : Connection) : list row :=
  filter shape (committed c).

(** The events of a queue, the sentinels left out. *)
Fixpoint events (q : list (option Metrics.LogEvent)) : list Metrics.LogEvent :=
  match q with
  | [] => []
  | Some e :: q' => e :: events q'
  | None :: q' => events q'
  end.

Section WithJson.

(** [json.dumps] *)
Variable dumps : Metrics.payload -> string.

(** The branch of [_write_batch] for one event. *)
Definition row_of (event : Metrics.LogEvent) : row :=
  match Metrics.body event with
  | Metrics.TickEvent tick_seq latency_ms drift_ms work_time_ms =>
      ticks_row (Metrics.run_id event) (Metrics.subsystem event) tick_seq
                latency_ms drift_ms work_time_ms (Metrics.ts_mono event)
  | Metrics.LockEvent lock_name wait_ms held_ms context =>
      locks_row (Metrics.run_id event) (Metrics.subsystem event) lock_name
                wait_ms held_ms context (Metrics.ts_mono event)
  | Metrics.QueueStatEvent queue_name size capacity dropped =>
      queue_stats_row (Metrics.run_id event) queue_name size capacity dropped
                      (Metrics.ts_mono event)
  | Metrics.MetricEvent payload =>
      metrics_row (Metrics.run_id event) (Metrics.subsystem event)
                  (dumps payload) (Metrics.ts_mono event)
  end.

(** [_write_batch] *)
Definition _write_batch (c : Connection) (batch : list Metrics.LogEvent)
  : Connection :=
  fold_left (fun c event => execute c (row_of event)) batch c.

Definition BATCH_SIZE : nat := 50.

(** The greedy fetch, [for _ in range(n)]: it stops at an empty queue, at
    the sentinel, which it takes out, and after [n] events.  The boolean
    tells that the sentinel was met, where the code sets
    [self._running = False]. *)
Fixpoint fetch (n : nat) (queue : list (option Metrics.LogEvent))
               (batch : list Metrics.LogEvent)
  : list (option Metrics.LogEvent) * list Metrics.LogEvent * bool :=
  match n with
  | O => (queue, batch, false)
  | S n' =>
      match queue with
      | [] => (queue, batch, false)
      | None :: queue' => (queue', batch, true)
      | Some next_item :: queue' => fetch n' queue' (batch ++ [next_item])
      end
  end.

(** How the body of the [while] loop ends: at its end or by the [continue]
    of the handler, or by the [break] on the sentinel. *)
Inductive pass_end : Type := Continue | Break.

(** One pass through the body of the [while] loop.  On an empty queue
    [get(timeout=1.0)] raises [queue.Empty] and the handler continues.
    Events that producers enqueue during a pass go to the tail, behind
    everything the pass reads, so a pass sees the queue as if they had been
    enqueued before it began. *)
Definition writer_pass (l : SqlLogger) (c : Connection)
  : SqlLogger * Connection * pass_end :=
  match _queue l with
  | [] => (l, c, Continue)
  | None :: queue' =>
      (mkLogger (db_path l) queue' (_running l) (run_id l), c, Break)
  | Some item :: queue' =>
      let '(queue'', batch, sentinel) :=
        fetch (BATCH_SIZE - 1) queue' [item] in
      (mkLogger (db_path l) queue''
                (if sentinel then false else _running l) (run_id l),
       commit (_write_batch c batch), Continue)
  end.

(** [while self._running or not self._queue.empty()] *)
Definition goes_on (l : SqlLogger) : bool :=
  _running l || negb (match _queue l with [] => true | _ => false end).

(** The test of the loop and, if it holds, one pass.  The boolean tells
    that the thread left the loop and closed its connection. *)
Definition writer_turn (l : SqlLogger) (c : Connection)
  : SqlLogger * Connection * bool :=
  if goes_on l then
    match writer_pass l c with
    | (l', c', Break) => (l', close c', true)
    | (l', c', Continue) => (l', c', false)
    end
  else (l, close c, true).

(** [_writer_loop], for at most [fuel] turns. *)
Fixpoint _writer_loop (fuel : nat) (l : SqlLogger) (c : Connection)
  : SqlLogger * Connection * bool :=
  match fuel with
  | O => (l, c, false)
  | S fuel' =>
      match writer_turn l c with
      | (l', c', true) => (l', c', true)
      | (l', c', false) => _writer_loop fuel' l' c'
      end
  end.

(** The sink between its producers and its writer: a producer calls
    [log], the owner calls [stop], the writer takes a turn. *)
Inductive sink_move : Type :=
| do_log (event : Metrics.LogEvent)
| do_stop
| do_turn.

Record Sink : Type := mkSink {
  logger : SqlLogger;
  conn   : Connection;
  exited : bool
}.

Definition sink_step (m : sink_move) (s : Sink) : Sink :=
  match m with
  | do_log event => mkSink (log (logger s) event) (conn s) (exited s)
  | do_stop => mkSink (stop (logger s)) (conn s) (exited s)
  | do_turn =>
      if exited s then s
      else let '(l, c, e) := writer_turn (logger s) (conn s) in mkSink l c e
  end.

Definition sink_run (ms : list sink_move) (s : Sink) : Sink :=
  fold_left (fun s m => sink_step m s) ms s.

(** The events that [log] accepted in a run: those logged while the sink
    was running. *)
Fixpoint logged (ms : list sink_move) (s : Sink) : list Metrics.LogEvent :=
  match ms with
  | [] => []
  | m :: ms' =>
      match m with
      | do_log event =>
          if _running (logger s) then event :: logged ms' (sink_step m s)
          else logged ms' (sink_step m s)
      | _ => logged ms' (sink_step m s)
      end
  end.

End WithJson.

End Writer.

(** ** [src/core/scenarios.py] and the lifecycle of [src/core/kernel.py] *)

Module Scenarios.

Import Sim.

Record ScenarioManager : Type := mkManager {
  active_scenario : option string;
  _stop_event     : bool
}.

(** The orchestrator with the fields that [toggle_scenario] and [stop]
    touch: [self.active_scenario], the state that the subsystems read, and
    [self.scenario_manager]. *)
Record Orchestrator (T : Type) : Type := mkOrchestrator {
  simulation        : Kernel.CitySimulation T;
  shared_scenario   : option string;
  scenario_manager  : ScenarioManager
}.

Arguments mkOrchestrator {T} _ _ _.
Arguments simulation {T} _.
Arguments shared_scenario {T} _.
Arguments scenario_manager {T} _.

(** [CitySimulation.__init__]: no scenario is active. *)
Definition init (T : Type) : Orchestrator T :=
  mkOrchestrator (Kernel.init T) None (mkManager None false).

(** An optional name as a payload value: [None] or the string. *)
Definition name_value (name : option string) : Metrics.value :=
  match name with
  | Some s => Metrics.VStr s
  | None => Metrics.VNone
  end.

Definition scenario_payload (old name : option string) (ts : Q)
  : Metrics.payload :=
  [ ("event"%string, Metrics.VStr "scenario_change");
    ("previous"%string, name_value old);
    ("current"%string, name_value name);
    ("ts"%string, Metrics.VFloat ts) ].

(** [ScenarioManager._set_scenario]; the payload is built, with its own
    reading of [time.time()], before the event is. *)
Definition _set_scenario {E T : Type} (self : Orchestrator T)
                         (name : option string) : M E (Orchestrator T) :=
  let old := active_scenario (scenario_manager self) in
  let self := mkOrchestrator (simulation self) name
                (mkManager name (_stop_event (scenario_manager self))) in
  rid <- logger_run_id ;;
  ts <- time ;;
  e <- new_event rid "ScenarioManager"
         (Metrics.MetricEvent (scenario_payload old name ts)) ;;
  log e ;;;
  ret self.

(** [self.active_scenario == name] *)
Definition is_active (m : ScenarioManager) (name : string) : bool :=
  match active_scenario m with
  | Some s => String.eqb s name
  | None => false
  end.

(** [CitySimulation.toggle_scenario], which hands over to
    [ScenarioManager.toggle_scenario]. *)
Definition toggle_scenario {E T : Type} (self : Orchestrator T)
                           (name : string) : M E (Orchestrator T) :=
  if is_active (scenario_manager self) name then _set_scenario self None
  else _set_scenario self (Some name).

(** A sequence of toggles, as the dashboard makes them. *)
Fixpoint toggles {E T : Type} (names : list string) (self : Orchestrator T)
  : M E (Orchestrator T) :=
  match names with
  | [] => ret self
  | name :: names' =>
      self <- toggle_scenario self name ;;
      toggles names' self
  end.

(** [CitySimulation.bootstrap]: the sink is started unless it runs
    ([SqlLogger.start] reads [time.time()] for the row of the run), and the
    three workers are built, each [Subsystem.__init__] reading
    [time.time()]. *)
Definition bootstrap {E T : Type} (self : Orchestrator T)
  : M E (Orchestrator T) :=
  (fun w =>
     if Database._running (logger w) then (tt, w)
     else
       let (_, w) := time w in
       (tt, mkWorld (clock w) (Database.start (logger w)) (running w)
                    (warnings w) (sleeps w) (env w))) ;;;
  traffic <- Base.init "Traffic" (1 # 2) ;;
  energy <- Base.init "Energy" (1 # 2) ;;
  water <- Base.init "Water" (1 # 2) ;;
  ret (mkOrchestrator
         (Kernel.mkSimulation (Kernel.ev_buffer (simulation self))
                              [traffic; energy; water])
         (shared_scenario self) (scenario_manager self)).

(** [CitySimulation.stop]: the running flag is cleared, the scenario
    manager is told to stop, the buffer is closed, and, after the joins,
    the sink is stopped. *)
Definition stop {E T : Type} (self : Orchestrator T) : M E (Orchestrator T) :=
  fun w =>
    let w := mkWorld (clock w) (logger w) false (warnings w) (sleeps w)
                     (env w) in
    let manager := mkManager (active_scenario (scenario_manager self)) true in
    let b := Buffer.after (Buffer.close (Kernel.ev_buffer (simulation self))) in
    let w := mkWorld (clock w) (Database.stop (logger w)) (running w)
                     (warnings w) (sleeps w) (env w) in
    (mkOrchestrator
       (Kernel.mkSimulation b (Kernel.subsystems (simulation self)))
       (shared_scenario self) manager,
     w).

End Scenarios.

(** ** [src/subsystems/water.py], [energy.py] and [traffic.py]

    The draws of the module [random] are arguments of the tick: a tick is
    a function of what the generator returned during it. *)

Module Subsystems.

Import Sim.

(** [max(a, b)] and [min(a, b)] of Python on floats: the first argument
    unless the second is strictly beyond it. *)
Definition py_max (a b : Q) : Q := if Qgtb b a then b else a.
Definition py_min (a b : Q) : Q := if Qgtb a b then b else a.

(** [int(x)]: truncation toward zero *)
Definition int (x : Q) : Z := Z.quot (Qnum x) (Zpos (Qden x)).

(** [hasattr(self.simulation, 'active_scenario') and
    self.simulation.active_scenario == "PowerOutage"]; the attribute is
    set by [CitySimulation.__init__]. *)
Definition power_outage (active_scenario : option string) : bool :=
  match active_scenario with
  | Some s => String.eqb s "PowerOutage"
  | None => false
  end.

(** *** Water *)

Record WaterSubsystem : Type := mkWater {
  water_base          : Base.Subsystem;
  pumping_capacity    : Q;
  reservoir_level     : Q;
  request_queue_depth : Z
}.

(** [WaterSubsystem.__init__], after that of the base class *)
Definition water_init (base : Base.Subsystem) : WaterSubsystem :=
  mkWater base 100 50 0.

(** [power_factor] and [capacity_per_tick] of a tick *)
Definition power_factor (active_scenario : option string) : Q :=
  if power_outage active_scenario then (2 # 10) else 1.

Definition capacity_per_tick (active_scenario : option string) : Z :=
  int (15 * power_factor active_scenario).

(** [WaterSubsystem.execute_tick]; [new_requests] is the value of
    [random.randint(5, 15)] and [r] that of [random.random()]. *)
Definition water_tick {E : Type} (active_scenario : option string)
                      (new_requests : Z) (r : Q) (self : WaterSubsystem)
  : M E WaterSubsystem :=
  let power_factor := power_factor active_scenario in
  let depth := request_queue_depth self + new_requests in
  let capacity_per_tick := capacity_per_tick active_scenario in
  let processed := Z.min depth capacity_per_tick in
  let depth := depth - processed in
  (if processed >? 0
   then sleep ((inject_Z processed * (5 # 1000)) / power_factor)
   else ret tt) ;;;
  (if depth >? 20 then sleep (5 # 100) else ret tt) ;;;
  let level :=
    (reservoir_level self + (inject_Z processed * (1 # 10) - r * (1 # 2)))%Q in
  let level := py_max 0 (py_min 100 level) in
  Base.log_metric (water_base self)
    [ ("reservoir_level"%string, Metrics.VFloat level);
      ("pending_requests"%string, Metrics.VInt depth);
      ("pumping_capacity_util"%string,
       Metrics.VFloat (inject_Z processed / 10));
      ("power_factor"%string, Metrics.VFloat power_factor) ] ;;;
  ret (mkWater (water_base self) (pumping_capacity self) level depth).

(** *** The requests that Traffic hands to Energy: the dictionary
    [{"id": ..., "kwh": ..., "ts": ...}], which is never empty and so is
    true in [if item:]. *)

Record request : Type := mkRequest {
  id  : string;
  kwh : Z;
  ts  : Q
}.

(** How a call of [ev_buffer.put] ends for its caller: [True], [False]
    after a timeout, or [ValueError]. *)
Inductive put_result : Type := put_done | put_timed_out | put_closed.

(** How a call of [ev_buffer.get] ends for its caller: an item, [None]
    after a timeout, or [StopIteration]. *)
Inductive get_result : Type :=
| got (item : request)
| get_timed_out
| get_closed.

(** *** Energy *)

Record EnergySubsystem : Type := mkEnergy {
  energy_base  : Base.Subsystem;
  base_load_mw : Q;
  ev_load_mw   : Q
}.

Definition energy_init (base : Base.Subsystem) : EnergySubsystem :=
  mkEnergy base 50 0.

Definition processing_delay (active_scenario : option string) : Q :=
  if power_outage active_scenario then (6 # 10) else (1 # 10).

Definition max_items (active_scenario : option string) : nat :=
  if power_outage active_scenario then 1%nat else 3%nat.

Section Energy.

Context {E : Type}.

(** [self.ev_buffer.get(timeout=0.05)], from the call to its end *)
Variable ev_get : M E get_result.

(** [for _ in range(n)] of the consumer; the accumulators are
    [processed_kwh] and [requests_processed]. *)
Fixpoint consume (n : nat) (processed_kwh requests_processed : Z)
  : M E (Z * Z) :=
  match n with
  | O => ret (processed_kwh, requests_processed)
  | S n' =>
      r <- ev_get ;;
      match r with
      | got item =>
          consume n' (processed_kwh + kwh item) (requests_processed + 1)
      | get_timed_out => ret (processed_kwh, requests_processed)
      | get_closed => ret (processed_kwh, requests_processed)
      end
  end.

(** [EnergySubsystem.execute_tick]; [r] is the value of
    [random.uniform(0.02, 0.08)]. *)
Definition energy_tick (active_scenario : option string) (r : Q)
                       (self : EnergySubsystem) : M E EnergySubsystem :=
  sleep (processing_delay active_scenario) ;;;
  done <- consume (max_items active_scenario) 0 0 ;;
  let ev_load := (inject_Z (fst done) / 1000)%Q in
  let total_load := (base_load_mw self + ev_load)%Q in
  sleep r ;;;
  Base.log_metric (energy_base self)
    [ ("total_load_mw"%string, Metrics.VFloat total_load);
      ("ev_load_mw"%string, Metrics.VFloat ev_load);
      ("requests_processed"%string, Metrics.VInt (snd done)) ] ;;;
  ret (mkEnergy (energy_base self) (base_load_mw self) ev_load).

End Energy.

(** *** Traffic *)

Record TrafficSubsystem : Type := mkTraffic {
  traffic_base : Base.Subsystem;
  cars_on_road : Z
}.

Definition traffic_init (base : Base.Subsystem) : TrafficSubsystem :=
  mkTraffic base 100.

(** [str(n)] inside an f-string *)
Definition str (n : Z) : string := NilZero.string_of_int (Z.to_int n).

Section Traffic.

Context {E : Type}.

(** [self.ev_buffer.put(request, timeout=0.2)], from the call to its end *)
Variable ev_put : request -> M E put_result.

(** [for _ in range(n)] of the producer; [draw k] is the pair of
    [random.randint(0, 99)] and [random.randint(20, 80)] of the request
    number [k]. *)
Fixpoint produce (self : Base.Subsystem) (draw : nat -> Z * Z) (k n : nat)
  : M E unit :=
  match n with
  | O => ret tt
  | S n' =>
      let req_id :=
        ("EV-" ++ str (Base.tick_count self) ++ "-" ++ str (fst (draw k)))%string in
      now <- time ;;
      let request := mkRequest req_id (snd (draw k)) now in
      success <- ev_put request ;;
      (match success with
       | put_done => ret tt
       | put_timed_out =>
           Base.log_metric self
             [ ("event"%string, Metrics.VStr "ev_req_dropped");
               ("reason"%string, Metrics.VStr "timeout_full") ]
       | put_closed => ret tt
       end) ;;;
      produce self draw (S k) n'
  end.

(** [TrafficSubsystem.execute_tick]; [change] is the value of
    [random.randint(-5, 5)], [r] that of [random.uniform(0.01, 0.05)] and
    [num_requests] that of [random.randint(2, 4)]. *)
Definition traffic_tick (change : Z) (r : Q) (num_requests : nat)
                        (draw : nat -> Z * Z) (self : TrafficSubsystem)
  : M E TrafficSubsystem :=
  let cars := Z.max 0 (Z.min 500 (cars_on_road self + change)) in
  sleep r ;;;
  produce (traffic_base self) draw 0 num_requests ;;;
  Base.log_metric (traffic_base self)
    [ ("cars"%string, Metrics.VInt cars);
      ("congestion"%string, Metrics.VFloat (inject_Z cars / 500));
      ("generated_requests"%string, Metrics.VInt (Z.of_nat num_requests)) ] ;;;
  ret (mkTraffic (traffic_base self) cars).

End Traffic.

End Subsystems.

(** ** Readings of events and of observations, used in the statements *)

Module Readings.

Import Buffer.

Definition tick_seq_of (e : Metrics.LogEvent) : option Z :=
  match Metrics.body e with Metrics.TickEvent n _ _ _ => Some n | _ => None end.

Definition latency_ms_of (e : Metrics.LogEvent) : option Q :=
  match Metrics.body e with Metrics.TickEvent _ l _ _ => Some l | _ => None end.

Definition work_time_ms_of (e : Metrics.LogEvent) : option Q :=
  match Metrics.body e with Metrics.TickEvent _ _ _ w => Some w | _ => None end.

Definition is_queue_stat (e : Metrics.LogEvent) : bool :=
  match Metrics.body e with
  | Metrics.QueueStatEvent _ _ _ _ => true
  | _ => false
  end.

(** The metric events with a given ["event"] entry. *)
Definition is_event (tag : string) (e : Metrics.LogEvent) : bool :=
  match Metrics.body e with
  | Metrics.MetricEvent ((key, Metrics.VStr v) :: _) =>
      String.eqb key "event" && String.eqb v tag
  | _ => false
  end.

Section Observations.

Context {T : Type}.

(** A producer parked, a consumer parked, a [try_put] turned away. *)
Definition producer_parked (o : observation T) : bool :=
  match o with ob_put _ _ (Wait _ _) => true | _ => false end.

Definition consumer_parked (o : observation T) : bool :=
  match o with ob_get _ (Wait _ _) => true | _ => false end.

Definition turned_away (o : observation T) : bool :=
  match o with ob_try_put _ _ (Return false) => true | _ => false end.

Definition count (p : observation T -> bool) (os : list (observation T)) : Z :=
  Z.of_nat (List.length (filter p os)).

(** The same for the observation of one move, if there is one. *)
Definition count1 (p : observation T -> bool) (o : option (observation T))
  : Z :=
  match o with
  | Some x => if p x then 1 else 0
  | None => 0
  end.

End Observations.

End Readings.

(** ** A thread alone with the buffer

    A call of [put] or [get] made while no other thread moves: the
    section entered by the call and, if it parks, the section entered when
    its wait times out, nobody being there to notify it. *)

Module Alone.

Import Buffer Sim Subsystems.

Section OneThread.

Context {T : Type}.

Variable t : tid.

Definition put_alone (item : T) (timeout : option Q) (s : System T)
  : outcome bool * System T :=
  match sys_step (Call t (c_put item timeout)) s with
  | (s1, Some (ob_put _ _ (Wait c d))) =>
      match sys_step (Resume t false) s1 with
      | (s2, Some (ob_put _ _ o)) => (o, s2)
      | (s2, _) => (Wait c d, s2)
      end
  | (s1, Some (ob_put _ _ o)) => (o, s1)
  | (s1, _) => (Wait _not_full timeout, s1)
  end.

Definition get_alone (timeout : option Q) (s : System T)
  : outcome (option T) * System T :=
  match sys_step (Call t (c_get timeout)) s with
  | (s1, Some (ob_get _ (Wait c d))) =>
      match sys_step (Resume t false) s1 with
      | (s2, Some (ob_get _ o)) => (o, s2)
      | (s2, _) => (Wait c d, s2)
      end
  | (s1, Some (ob_get _ o)) => (o, s1)
  | (s1, _) => (Wait _not_empty timeout, s1)
  end.

End OneThread.

(** The world of a subsystem whose rest is the buffer. *)
Definition with_env {E : Type} (w : World E) (e : E) : World E :=
  mkWorld (clock w) (logger w) (running w) (warnings w) (sleeps w) e.

(** [self.ev_buffer.put(request, timeout=0.2)] by thread [t], alone.  A
    thread that is not parked and waits with a timeout always gets an
    answer, so the last case does not arise. *)
Definition ev_put_alone (t : tid) (item : request)
  : M (System request) put_result :=
  fun w =>
    let (o, s) := put_alone t item (Some (2 # 10)) (env w) in
    (match o with
     | Return true => put_done
     | Return false => put_timed_out
     | Raise _ => put_closed
     | Wait _ _ => put_timed_out
     end, with_env w s).

(** [self.ev_buffer.get(timeout=0.05)] by thread [t], alone. *)
Definition ev_get_alone (t : tid) : M (System request) get_result :=
  fun w =>
    let (o, s) := get_alone t (Some (5 # 100)) (env w) in
    (match o with
     | Return (Some item) => got item
     | Return None => get_timed_out
     | Raise _ => get_closed
     | Wait _ _ => get_timed_out
     end, with_env w s).

(** The requests that a tick of Traffic builds: number [k] is built at the
    wall-clock reading [at k]. *)
Definition request_of (self : Base.Subsystem) (draw : nat -> Z * Z)
                      (at_ : nat -> Q) (k : nat) : request :=
  mkRequest ("EV-" ++ str (Base.tick_count self) ++ "-" ++ str (fst (draw k)))
            (snd (draw k)) (at_ k).

Definition total_kwh (items : list request) : Z :=
  fold_right (fun item acc => kwh item + acc) 0 items.

End Alone.

(** ** More sample values: a sink with its writer, a buffer of requests
    and the workers around it. *)

Module Samples.

Import Buffer.

(** A printer of payloads: the keys, in order. *)
Definition dumps (p : Metrics.payload) : string :=
  String.concat ", " (map fst p).

Definition tick : Metrics.LogEvent :=
  Metrics.mkEvent 1000 "Traffic" (1000 # 1) (1 # 4)
                  (Metrics.TickEvent 1 5 0 3).

Definition status : Metrics.LogEvent :=
  Metrics.mkEvent 1000 "Traffic" (1001 # 1) (1 # 2)
                  (Metrics.MetricEvent [("cars"%string, Metrics.VInt 100)]).

Definition database : Writer.Connection := Writer.mkConnection [] [].

(** A running sink with one event queued, its writer in the loop. *)
Definition writing : Writer.Sink :=
  Writer.mkSink (Database.log Examples.sink tick) database false.

Definition logging : list Writer.sink_move :=
  [Writer.do_log status; Writer.do_turn; Writer.do_log tick].

(** A sink stopped between two calls of [log] that were let through. *)
Definition cut : Database.SqlLogger :=
  Database.mkLogger "v2_city.sqlite3" [Some tick; None; Some status] false
                    1000.

Definition orchestrator : Scenarios.Orchestrator Z := Scenarios.init Z.

(** Two requests, of 30 and 45 kWh. *)
Definition first : Subsystems.request :=
  Subsystems.mkRequest "EV-1-1234" 30 (1000 # 1).

Definition second : Subsystems.request :=
  Subsystems.mkRequest "EV-1-5678" 45 (1001 # 1).

Definition empty_queue : System Subsystems.request :=
  boot 2 "EV_Charging_Queue".

Definition queue_of_two : System Subsystems.request :=
  fst (sys_run [Call 0%nat (c_put first None);
                Call 0%nat (c_put second None)] empty_queue).

Definition closed_queue : System Subsystems.request :=
  fst (sys_run [Call 9%nat c_close] queue_of_two).

Definition around (s : System Subsystems.request)
  : Sim.World (System Subsystems.request) :=
  Sim.mkWorld Examples.ticking Examples.sink true [] [] s.

Definition traffic : Subsystems.TrafficSubsystem :=
  Subsystems.traffic_init Examples.traffic.

Definition energy : Subsystems.EnergySubsystem :=
  Subsystems.energy_init Examples.energy.

Definition water : Subsystems.WaterSubsystem :=
  Subsystems.water_init (Base.mkSubsystem "Water" (1 # 2) (1000 # 1) 0).

(** The draws of [random.randint(1000, 9999)] and [random.randint(20, 80)]
    for request number [k]. *)
Definition draw (k : nat) : Z * Z := (1000 + Z.of_nat k, 20 + Z.of_nat k).

(** A producer parked on the full buffer of capacity 1. *)
Definition with_parked_producer : System Z :=
  fst (sys_step (Call 1%nat (c_put 20 None)) Examples.full_buffer).

End Samples.

Import Buffer.

(** Case analysis on the critical sections: unfold the methods and split
    on every test they make. *)
Ltac unfold_sections :=
  unfold put, put_wake, put_loop, get, get_wake, get_loop, try_put, close,
         qsize, is_full in *.

Ltac split_sections :=
  repeat match goal with
         | |- context [if ?c then _ else _] => destruct c eqn:?
         | |- context [match _buffer ?b with _ => _ end] =>
             destruct (_buffer b) eqn:?
         end.

(** The section of another thread made no signal: the thread parked
    according to [Hp] is parked as before. *)
Ltac still_parked Hp :=
  match goal with
  | |- context [Nat.eqb ?t ?u] =>
      destruct (Nat.eqb_spec t u) as [->|_]; [contradiction|];
      rewrite Hp; auto 10
  end.

(** * Properties of the bounded buffer *)

Section BufferFacts.

Context {T : Type}.

Implicit Types (b : BoundedBuffer T) (s : System T) (m : move T).

Lemma len_nonneg b : 0 <= len b.
Proof. unfold len. lia. Qed.

Lemma sys_run_cons m (ms : list (move T)) s :
  sys_run (m :: ms) s =
  (fst (sys_run ms (fst (sys_step m s))),
   match snd (sys_step m s) with
   | Some x => x :: snd (sys_run ms (fst (sys_step m s)))
   | None => snd (sys_run ms (fst (sys_step m s)))
   end).
Proof.
  simpl. destruct (sys_step m s) as [s1 o]; simpl.
  destruct (sys_run ms s1) as [s2 os]; reflexivity.
Qed.

Lemma sys_step_critical m s :
  critical_section (buf s) (buf (fst (sys_step m s))).
Proof.
  destruct m as [t c | t success]; simpl.
  - destruct (parked s t); simpl; [constructor|].
    destruct c; simpl; constructor.
  - destruct (parked s t) as [[item timeout n | timeout n]|]; simpl;
      try constructor;
      destruct (may_resume timeout n success); simpl; constructor.
Qed.

(** An invariant of the critical sections holds after every run. *)
Lemma sys_run_invariant (P : BoundedBuffer T -> Prop) :
  (forall b b', critical_section b b' -> P b -> P b') ->
  forall (ms : list (move T)) s, P (buf s) -> P (buf (fst (sys_run ms s))).
Proof.
  intros Hcs ms; induction ms as [|m ms IH]; intros s Hs; [exact Hs|].
  rewrite sys_run_cons; simpl. apply IH.
  eapply Hcs; [apply sys_step_critical | exact Hs].
Qed.

End BufferFacts.

Section BufferInvariants.

Context {T : Type}.

Implicit Types (b : BoundedBuffer T) (s : System T) (m : move T).

Lemma critical_section_capacity b b' :
  critical_section b b' -> capacity b' = capacity b.
Proof.
  intros H; destruct H; unfold_sections; simpl; split_sections; reflexivity.
Qed.

Lemma critical_section_bounded b b' :
  critical_section b b' -> len b <= capacity b -> len b' <= capacity b'.
Proof.
  intros H Hb; destruct H; unfold_sections; simpl in *; split_sections;
    simpl in *; unfold len in *; simpl in *;
    try rewrite length_app in *; simpl in *;
    repeat match goal with
           | H : _buffer _ = _ |- _ => rewrite H in *; simpl in *
           end; lia.
Qed.

End BufferInvariants.

Section BufferClaims.

Context {T : Type}.

Implicit Types (b : BoundedBuffer T) (s : System T) (m : move T).

Lemma critical_section_conserves b b' :
  critical_section b b' ->
  puts (stats b) = gets (stats b) + len b ->
  puts (stats b') = gets (stats b') + len b'.
Proof.
  intros H Hb; destruct H; unfold_sections; simpl in *; split_sections;
    simpl in *; unfold len in *; simpl in *;
    try rewrite length_app in *; simpl in *;
    repeat match goal with
           | H : _buffer _ = _ |- _ => rewrite H in *; simpl in *
           end; lia.
Qed.

Lemma critical_section_closed b b' :
  critical_section b b' -> _closed b = true -> _closed b' = true.
Proof.
  intros H Hb; destruct H; unfold_sections; simpl in *; rewrite ?Hb; simpl;
    split_sections; simpl; auto.
Qed.

(** C1.  A buffer constructed with a capacity [C >= 1] holds between [0] and
    [C] items after every sequence of moves of any number of threads calling
    [put], [try_put], [get], [close], [qsize] and [is_full]; the capacity
    itself never changes.  Every prefix of a run is a run, so the bound holds
    at every point of an execution. *)
Theorem size_within_capacity (C : Z) (nm : string) (ms : list (move T)) :
  1 <= C ->
  let b := buf (fst (sys_run ms (boot C nm))) in
  capacity b = C /\ 0 <= len b <= C.
Proof.
  intros HC b.
  assert (H : capacity b = C /\ len b <= capacity b).
  { subst b.
    apply (sys_run_invariant
             (fun b => capacity b = C /\ len b <= capacity b)).
    - intros b0 b1 Hcs [Hcap Hlen]. split.
      + rewrite (critical_section_capacity _ _ Hcs). exact Hcap.
      + eapply critical_section_bounded; eassumption.
    - simpl. split; [reflexivity | unfold len; simpl; lia]. }
  destruct H as [Hcap Hlen]. split; [exact Hcap|].
  split; [apply len_nonneg | lia].
Qed.

(** C3.  Starting from a freshly constructed buffer, after every sequence of
    moves [stats["puts"] = stats["gets"] + len(_buffer)]. *)
Theorem puts_eq_gets_plus_size (C : Z) (nm : string) (ms : list (move T)) :
  let b := buf (fst (sys_run ms (boot C nm))) in
  puts (stats b) = gets (stats b) + len b.
Proof.
  intros b; subst b.
  apply (sys_run_invariant (fun b => puts (stats b) = gets (stats b) + len b)).
  - intros b0 b1 Hcs H. eapply critical_section_conserves; eassumption.
  - reflexivity.
Qed.

End BufferClaims.

Section Fifo.

Context {T : Type}.

Implicit Types (b : BoundedBuffer T) (s : System T) (m : move T).

(** One move: what was queued, followed by what the move enqueued, is what
    the move dequeued, followed by what is queued now. *)
Lemma sys_step_fifo m s :
  _buffer (buf s) ++ accepted_by (snd (sys_step m s)) =
  delivered_by (snd (sys_step m s)) ++ _buffer (buf (fst (sys_step m s))).
Proof.
  destruct m as [t c | t success]; simpl.
  - destruct (parked s t); simpl; [apply app_nil_r|].
    destruct c; simpl; unfold_sections; simpl; split_sections; simpl;
      rewrite ?app_nil_r; try reflexivity;
      match goal with H : _buffer _ = _ |- _ => simpl in H; rewrite H end;
      reflexivity.
  - destruct (parked s t) as [[item timeout n | timeout n]|]; simpl;
      try apply app_nil_r;
      destruct (may_resume timeout n success); simpl;
      try apply app_nil_r;
      unfold_sections; simpl; split_sections; simpl;
      rewrite ?app_nil_r; try reflexivity;
      match goal with H : _buffer _ = _ |- _ => simpl in H; rewrite H end;
      reflexivity.
Qed.

Lemma sys_run_fifo (ms : list (move T)) s :
  _buffer (buf s) ++ accepted (snd (sys_run ms s)) =
  delivered (snd (sys_run ms s)) ++ _buffer (buf (fst (sys_run ms s))).
Proof.
  revert s; induction ms as [|m ms IH]; intros s; [apply app_nil_r|].
  rewrite sys_run_cons; simpl.
  pose proof (sys_step_fifo m s) as Hstep.
  specialize (IH (fst (sys_step m s))).
  destruct (snd (sys_step m s)) as [x|]; simpl in *.
  - unfold accepted, delivered in *; simpl.
    rewrite app_assoc, Hstep, <- !app_assoc. f_equal. exact IH.
  - rewrite app_nil_r in Hstep. rewrite Hstep. exact IH.
Qed.

(** C2.  After every run from a fresh buffer, the items accepted so far (by
    [put] or [try_put] returning [True]), in the order of their acceptance,
    are the items handed out so far by [get], in the order of the hand-outs,
    followed by the queue.  So the hand-outs follow the acceptances, and a
    [get] that succeeds next returns the oldest accepted item not handed out
    yet and leaves the later ones queued. *)
Theorem fifo_order (C : Z) (nm : string) (ms : list (move T)) :
  let r := sys_run ms (boot C nm) in
  accepted (snd r) = delivered (snd r) ++ _buffer (buf (fst r)) /\
  forall m t item,
    snd (sys_step m (fst r)) = Some (ob_get t (Return (Some item))) ->
    accepted (snd r) =
    delivered (snd r) ++ item :: _buffer (buf (fst (sys_step m (fst r)))).
Proof.
  intros r.
  assert (H : accepted (snd r) = delivered (snd r) ++ _buffer (buf (fst r))).
  { subst r. exact (sys_run_fifo ms (boot C nm)). }
  split; [exact H|].
  intros m t item Hget. rewrite H. f_equal.
  pose proof (sys_step_fifo m (fst r)) as Hstep.
  rewrite Hget in Hstep; simpl in Hstep.
  rewrite app_nil_r in Hstep. exact Hstep.
Qed.

End Fifo.

Section Closing.

Context {T : Type}.

Implicit Types (b : BoundedBuffer T) (s : System T) (m : move T).

(** On a closed buffer the three entries of the producers refuse the item:
    the queue and the counters of accepted and dropped items stay as they
    are. *)
Lemma put_when_closed b item timeout :
  _closed b = true ->
  put b item timeout =
  mkSection (set_op_counter b (op_counter b + 1))
            (Raise (ValueError (closed_msg b))) [].
Proof. intros H. unfold put; simpl. rewrite H. reflexivity. Qed.

Lemma put_wake_when_closed b item timeout success :
  _closed b = true ->
  put_wake b item timeout success =
  mkSection b (Raise (ValueError (closed_msg b))) [].
Proof. intros H. unfold put_wake. rewrite H. reflexivity. Qed.

Lemma try_put_when_closed b item :
  _closed b = true -> try_put b item = mkSection b (Return false) [].
Proof. intros H. unfold try_put. rewrite H. reflexivity. Qed.

Lemma sys_step_when_closed m s :
  _closed (buf s) = true ->
  _closed (buf (fst (sys_step m s))) = true /\
  name (buf (fst (sys_step m s))) = name (buf s) /\
  match snd (sys_step m s) with
  | Some (ob_put _ _ o) => o = Raise (ValueError (closed_msg (buf s)))
  | Some (ob_try_put _ _ o) => o = Return false
  | _ => True
  end.
Proof.
  intros Hc. destruct m as [t c | t success]; simpl.
  - destruct (parked s t); simpl; [auto|].
    destruct c; simpl;
      rewrite ?put_when_closed, ?try_put_when_closed by exact Hc; simpl;
      auto.
    unfold get, get_loop; simpl. rewrite Hc.
    destruct (_buffer (buf s)); simpl; auto.
  - destruct (parked s t) as [[item timeout n | timeout n]|]; simpl; auto;
      destruct (may_resume timeout n success); simpl; auto.
    + rewrite put_wake_when_closed by exact Hc; simpl; auto.
    + unfold get_wake, get_loop. rewrite Hc.
      destruct (negb success); simpl; auto.
      destruct (_buffer (buf s)); simpl; auto.
Qed.

Lemma sys_run_when_closed (ms : list (move T)) s :
  _closed (buf s) = true ->
  _closed (buf (fst (sys_run ms s))) = true /\
  (forall t item o, In (ob_put t item o) (snd (sys_run ms s)) ->
                    o = Raise (ValueError (closed_msg (buf s)))) /\
  (forall t item o, In (ob_try_put t item o) (snd (sys_run ms s)) ->
                    o = Return false).
Proof.
  revert s; induction ms as [|m ms IH]; intros s Hc.
  - simpl. repeat split; auto; intros; contradiction.
  - rewrite sys_run_cons; simpl.
    destruct (sys_step_when_closed m s Hc) as (Hc1 & Hn & Ho).
    destruct (IH _ Hc1) as (Hc2 & Hput & Htry).
    assert (Hmsg : closed_msg (buf (fst (sys_step m s))) = closed_msg (buf s)).
    { unfold closed_msg. rewrite Hn. reflexivity. }
    rewrite Hmsg in Hput.
    split; [exact Hc2|].
    destruct (snd (sys_step m s)) as [x|]; [|split; assumption].
    split; intros t item o [Hx | Hin]; eauto; subst x; exact Ho.
Qed.

Lemma accepted_nil_when_refused (os : list (observation T)) msg :
  (forall t item o, In (ob_put t item o) os -> o = Raise (ValueError msg)) ->
  (forall t item o, In (ob_try_put t item o) os -> o = Return false) ->
  accepted os = [].
Proof.
  induction os as [|x os IH]; intros Hput Htry; [reflexivity|].
  unfold accepted in *; simpl.
  rewrite IH by (intros; eauto using in_cons). rewrite app_nil_r.
  destruct x as [t item o | | t item o | | |]; try reflexivity.
  - rewrite (Hput t item o) by (left; reflexivity). reflexivity.
  - rewrite (Htry t item o) by (left; reflexivity). reflexivity.
Qed.

(** C4.  On a closed buffer [put] raises [ValueError] (the code's
    [ChannelClosed] of producers) in the section entered by the call and,
    whatever [wait] returned, in the section entered after a wait; [try_put]
    returns [False]; none of them touches the queue.  A closed buffer stays
    closed, so in every run from a closed buffer every section of every
    [put] ends in that [ValueError], every [try_put] returns [False], no
    item is accepted, and the queue only loses the items that [get] hands
    out. *)
Theorem closed_refuses_items s (ms : list (move T)) :
  _closed (buf s) = true ->
  (forall item timeout,
     ended (put (buf s) item timeout) = Raise (ValueError (closed_msg (buf s)))
     /\ _buffer (after (put (buf s) item timeout)) = _buffer (buf s)) /\
  (forall item timeout success,
     ended (put_wake (buf s) item timeout success) =
       Raise (ValueError (closed_msg (buf s)))
     /\ _buffer (after (put_wake (buf s) item timeout success)) =
        _buffer (buf s)) /\
  (forall item,
     ended (try_put (buf s) item) = Return false
     /\ _buffer (after (try_put (buf s) item)) = _buffer (buf s)) /\
  let r := sys_run ms s in
  _closed (buf (fst r)) = true /\
  (forall t item o, In (ob_put t item o) (snd r) ->
                    o = Raise (ValueError (closed_msg (buf s)))) /\
  (forall t item o, In (ob_try_put t item o) (snd r) -> o = Return false) /\
  accepted (snd r) = [] /\
  _buffer (buf s) = delivered (snd r) ++ _buffer (buf (fst r)).
Proof.
  intros Hc.
  split; [intros; rewrite put_when_closed by exact Hc; auto|].
  split; [intros; rewrite put_wake_when_closed by exact Hc; auto|].
  split; [intros; rewrite try_put_when_closed by exact Hc; auto|].
  intros r. subst r.
  destruct (sys_run_when_closed ms s Hc) as (Hc' & Hput & Htry).
  pose proof (accepted_nil_when_refused _ _ Hput Htry) as Hacc.
  repeat split; auto.
  pose proof (sys_run_fifo ms s) as Hf.
  rewrite Hacc, app_nil_r in Hf. exact Hf.
Qed.

End Closing.

Section Draining.

Context {T : Type}.

Implicit Types (b : BoundedBuffer T) (s : System T) (m : move T).

Lemma get_on_items b timeout item rest :
  _buffer b = item :: rest ->
  ended (get b timeout) = Return (Some item) /\
  _buffer (after (get b timeout)) = rest /\
  _closed (after (get b timeout)) = _closed b /\
  gets (stats (after (get b timeout))) = gets (stats b) + 1.
Proof.
  intros H. unfold get, get_loop; simpl. rewrite H; simpl. auto.
Qed.

Lemma get_raises_iff b timeout :
  (exists e, ended (get b timeout) = Raise e) <->
  _buffer b = [] /\ _closed b = true.
Proof.
  unfold get, get_loop; simpl.
  destruct (_buffer b) as [|x q]; [destruct (_closed b)|]; simpl; split;
    try (intros [e He]; discriminate He);
    try (intros [H1 H2]; discriminate);
    eauto.
Qed.

Lemma get_wake_raises_iff b timeout success :
  (exists e, ended (get_wake b timeout success) = Raise e) <->
  success = true /\ _buffer b = [] /\ _closed b = true.
Proof.
  unfold get_wake, get_loop.
  destruct success; simpl;
    [destruct (_buffer b) as [|x q]; [destruct (_closed b)|] |]; simpl; split;
    try (intros [e He]; discriminate He);
    try (intros (H1 & H2 & H3); discriminate);
    eauto.
Qed.

(** A consumer that keeps calling [get] on a closed buffer receives the
    queued items one by one, oldest first, and then [StopIteration]. *)
Lemma drain_closed timeout (t : tid) (q : list T) : forall s,
  _buffer (buf s) = q -> _closed (buf s) = true -> parked s t = None ->
  snd (sys_run (repeat (Call t (c_get timeout)) (S (List.length q))) s) =
  map (fun item => ob_get t (Return (Some item))) q ++
  [ob_get t (Raise (StopIteration "Buffer closed and empty"))].
Proof.
  induction q as [|item rest IH]; intros s Hq Hc Hp.
  - simpl. rewrite Hp. unfold get, get_loop; simpl. rewrite Hq, Hc.
    reflexivity.
  - change (repeat (Call t (c_get (T:=T) timeout))
                   (S (List.length (item :: rest))))
      with (Call t (c_get (T:=T) timeout)
              :: repeat (Call t (c_get timeout)) (S (List.length rest))).
    rewrite sys_run_cons.
    destruct (get_on_items (buf s) timeout item rest Hq) as (He & Hb & Hcl & _).
    assert (Hstep : sys_step (Call t (c_get timeout)) s =
                    (settle s t (get (buf s) timeout) None,
                     Some (ob_get t (Return (Some item))))).
    { simpl. rewrite Hp, He. reflexivity. }
    rewrite Hstep. cbn [fst snd].
    rewrite IH.
    + reflexivity.
    + exact Hb.
    + simpl. rewrite Hcl. exact Hc.
    + simpl. rewrite Nat.eqb_refl. reflexivity.
Qed.

(** C5.  [get] raises (the [StopIteration] that is the code's
    [ChannelClosed] of consumers) exactly when the queue is empty and the
    buffer is closed, in the section entered by the call and in the one
    entered after a notified wait; after a timed-out wait it returns [None]
    and never raises.  With an item queued, closed or not, [get] returns the
    head and leaves the tail.  A closed buffer is drained in order: the
    calls of a consumer return every queued item, then the next one
    raises. *)
Theorem get_raises_only_when_drained s (timeout : option Q) (t : tid) :
  ((exists e, ended (get (buf s) timeout) = Raise e) <->
   _buffer (buf s) = [] /\ _closed (buf s) = true) /\
  (forall success,
     (exists e, ended (get_wake (buf s) timeout success) = Raise e) <->
     success = true /\ _buffer (buf s) = [] /\ _closed (buf s) = true) /\
  (forall item rest,
     _buffer (buf s) = item :: rest ->
     ended (get (buf s) timeout) = Return (Some item) /\
     _buffer (after (get (buf s) timeout)) = rest /\
     ended (get_wake (buf s) timeout true) = Return (Some item) /\
     _buffer (after (get_wake (buf s) timeout true)) = rest) /\
  (_closed (buf s) = true -> parked s t = None ->
   snd (sys_run (repeat (Call t (c_get timeout))
                        (S (List.length (_buffer (buf s))))) s) =
   map (fun item => ob_get t (Return (Some item))) (_buffer (buf s)) ++
   [ob_get t (Raise (StopIteration "Buffer closed and empty"))]).
Proof.
  split; [apply get_raises_iff|].
  split; [intros; apply get_wake_raises_iff|].
  split.
  - intros item rest H.
    destruct (get_on_items (buf s) timeout item rest H) as (He & Hb & _).
    repeat split; auto; unfold get_wake, get_loop; simpl; rewrite H;
      reflexivity.
  - intros Hc Hp. apply drain_closed; auto.
Qed.

End Draining.

Section NonBlockingPut.

Context {T : Type}.

Implicit Types (b : BoundedBuffer T).

(** C6, as the code has it.  [try_put] is one critical section that always
    returns a boolean: it never waits and never raises.  On a buffer that is
    not closed and is full it returns [False], adds one to
    [stats["drop_count"]] and changes nothing else.  On a closed buffer,
    full or not, it returns [False] and changes nothing at all: the guard
    [if self._closed: return False] comes before the drop is counted. *)
Theorem try_put_full_or_closed b (item : T) :
  (exists r, ended (try_put b item) = Return r) /\
  (_closed b = false -> capacity b <= len b ->
   ended (try_put b item) = Return false /\
   drop_count (stats (after (try_put b item))) = drop_count (stats b) + 1 /\
   after (try_put b item) = set_stats b (incr_drop_count (stats b)) /\
   signals (try_put b item) = []) /\
  (_closed b = true ->
   ended (try_put b item) = Return false /\
   after (try_put b item) = b /\
   signals (try_put b item) = []).
Proof.
  unfold try_put. split; [|split].
  - destruct (_closed b); [simpl; eauto|].
    destruct (len b >=? capacity b); simpl; eauto.
  - intros Hc Hfull. rewrite Hc.
    destruct (len b >=? capacity b) eqn:Hge; [simpl; auto | lia].
  - intros Hc. rewrite Hc. simpl. auto.
Qed.

End NonBlockingPut.

Section TimedPut.

Context {T : Type}.

Implicit Types (b : BoundedBuffer T) (s : System T) (m : move T).

(** While the buffer is full and open, a move of another thread that
    neither closes the buffer nor takes an item out leaves the queue, the
    counters of accepted and handed-out items, and the parked producer as
    they are: nothing has notified the producer. *)
Lemma quiet_step m s (t : tid) (w : waiter T) :
  mover m <> t -> parked s t = Some w ->
  _closed (buf s) = false -> capacity (buf s) <= len (buf s) ->
  match snd (sys_step m s) with
  | Some o => frees_or_closes o = false
  | None => True
  end ->
  let s' := fst (sys_step m s) in
  parked s' t = Some w /\
  _closed (buf s') = false /\
  capacity (buf s') = capacity (buf s) /\
  _buffer (buf s') = _buffer (buf s) /\
  puts (stats (buf s')) = puts (stats (buf s)) /\
  gets (stats (buf s')) = gets (stats (buf s)).
Proof.
  intros Hne Hp Hc Hfull Hq s'; subst s'.
  assert (Hge : (len (buf s) >=? capacity (buf s)) = true) by lia.
  destruct m as [u c | u success]; simpl in Hne, Hq |- *.
  - destruct (parked s u) eqn:Hu; simpl in *; [auto 10|].
    destruct c; simpl in Hq |- *; try discriminate Hq.
    + unfold put, put_loop in *; simpl in *. rewrite Hc in *.
      unfold len in Hge |- *; simpl in *. rewrite Hge in *. simpl.
      still_parked Hp.
    + unfold get, get_loop in *; simpl in *. rewrite Hc in *.
      destruct (_buffer (buf s)) eqn:Hb; simpl in *; [|discriminate Hq].
      still_parked Hp.
    + unfold try_put in *. rewrite Hc, Hge in *. simpl.
      still_parked Hp.
    + still_parked Hp.
    + still_parked Hp.
  - destruct (parked s u) as [[item timeout n | timeout n]|] eqn:Hu;
      simpl in *; [| |auto 10].
    + destruct (may_resume timeout n success); simpl in *; [|auto 10].
      unfold put_wake, put_loop in *. rewrite Hc, Hge in *.
      destruct success; simpl in *; still_parked Hp.
    + destruct (may_resume timeout n success); simpl in *; [|auto 10].
      unfold get_wake, get_loop in *. rewrite Hc in *.
      destruct success; simpl in *; [|still_parked Hp].
      destruct (_buffer (buf s)) eqn:Hb; simpl in *; [|discriminate Hq].
      still_parked Hp.
Qed.

Lemma put_on_full b (item : T) timeout :
  _closed b = false -> capacity b <= len b ->
  put b item timeout =
  mkSection (set_stats (set_op_counter b (op_counter b + 1))
                       (incr_waits_for_space (stats b)))
            (Wait _not_full timeout) [].
Proof.
  intros Hc Hfull. unfold put, put_loop.
  change (_closed (set_op_counter b (op_counter b + 1))) with (_closed b).
  change (len (set_op_counter b (op_counter b + 1))) with (len b).
  change (capacity (set_op_counter b (op_counter b + 1))) with (capacity b).
  rewrite Hc. destruct (len b >=? capacity b) eqn:Hge; [reflexivity | lia].
Qed.

Lemma quiet_run (t : tid) (w : waiter T) (others : list (move T)) : forall s,
  Forall (fun m => mover m <> t) others ->
  parked s t = Some w ->
  _closed (buf s) = false -> capacity (buf s) <= len (buf s) ->
  Forall (fun o => frees_or_closes o = false) (snd (sys_run others s)) ->
  let s' := fst (sys_run others s) in
  parked s' t = Some w /\
  _closed (buf s') = false /\
  capacity (buf s') = capacity (buf s) /\
  _buffer (buf s') = _buffer (buf s) /\
  puts (stats (buf s')) = puts (stats (buf s)) /\
  gets (stats (buf s')) = gets (stats (buf s)).
Proof.
  induction others as [|m ms IH]; intros s Hmv Hp Hc Hfull Hq; [simpl; auto 10|].
  rewrite sys_run_cons in Hq |- *. cbn [fst snd] in Hq |- *.
  inversion Hmv as [|? ? Hm Hms]; subst.
  assert (Hq1 : match snd (sys_step m s) with
                | Some o => frees_or_closes o = false
                | None => True
                end).
  { destruct (snd (sys_step m s)); [inversion Hq; assumption | exact I]. }
  assert (Hq2 : Forall (fun o => frees_or_closes o = false)
                       (snd (sys_run ms (fst (sys_step m s))))).
  { destruct (snd (sys_step m s)); [inversion Hq; assumption | exact Hq]. }
  destruct (quiet_step m s t w Hm Hp Hc Hfull Hq1)
    as (Hp1 & Hc1 & Hcap1 & Hb1 & Hpu1 & Hg1).
  assert (Hfull1 : capacity (buf (fst (sys_step m s)))
                   <= len (buf (fst (sys_step m s)))).
  { unfold len in *. rewrite Hcap1, Hb1. exact Hfull. }
  destruct (IH _ Hms Hp1 Hc1 Hfull1 Hq2) as (Hp2 & Hc2 & Hcap2 & Hb2 & Hpu2 & Hg2).
  repeat split; congruence.
Qed.

(** C7.  Thread [t] calls [put(item, timeout=d)] on a buffer that is full
    and open.  The call parks on [_not_full] after adding one to
    [stats["waits_for_space"]] (and to [op_counter], the sequence number of
    the trace).  As long as the other threads neither close the buffer nor
    take an item out, nothing notifies [_not_full], so the wait cannot
    return [True]: it ends by the timeout, [put] returns [False], and that
    last section changes nothing.  The queue and the counters of accepted
    and handed-out items are those at the call; when no other thread moved
    in between, the whole buffer is as at the call except for the wait
    counter and the sequence number. *)
Theorem put_timeout_on_full s (t : tid) (item : T) (d : Q)
                            (others : list (move T)) :
  parked s t = None ->
  _closed (buf s) = false ->
  capacity (buf s) <= len (buf s) ->
  Forall (fun m => mover m <> t) others ->
  Forall (fun o => frees_or_closes o = false)
         (snd (sys_run others
                 (fst (sys_step (Call t (c_put item (Some d))) s)))) ->
  let parking := sys_step (Call t (c_put item (Some d))) s in
  let s2 := fst (sys_run others (fst parking)) in
  let back := sys_step (Resume t false) s2 in
  snd parking = Some (ob_put t item (Wait _not_full (Some d))) /\
  buf (fst parking) =
    set_stats (set_op_counter (buf s) (op_counter (buf s) + 1))
              (incr_waits_for_space (stats (buf s))) /\
  sys_step (Resume t true) s2 = (s2, None) /\
  snd back = Some (ob_put t item (Return false)) /\
  parked (fst back) t = None /\
  buf (fst back) = buf s2 /\
  _buffer (buf s2) = _buffer (buf s) /\
  puts (stats (buf s2)) = puts (stats (buf s)) /\
  gets (stats (buf s2)) = gets (stats (buf s)) /\
  (others = [] ->
   let b := buf s in
   let b' := buf (fst back) in
   _buffer b' = _buffer b /\
   len b' = len b /\
   puts (stats b') = puts (stats b) /\
   gets (stats b') = gets (stats b) /\
   drop_count (stats b') = drop_count (stats b) /\
   waits_for_item (stats b') = waits_for_item (stats b) /\
   waits_for_space (stats b') = waits_for_space (stats b) + 1 /\
   _closed b' = _closed b /\
   capacity b' = capacity b /\
   name b' = name b /\
   op_counter b' = op_counter b + 1).
Proof.
  intros Hp Hc Hfull Hmv Hq parking s2 back.
  assert (Hpark : parking =
                  (settle s t (put (buf s) item (Some d))
                          (Some (producer item (Some d) false)),
                   Some (ob_put t item (Wait _not_full (Some d))))).
  { subst parking. simpl. rewrite Hp.
    rewrite (put_on_full _ item (Some d) Hc Hfull). reflexivity. }
  assert (Hbuf : buf (fst parking) =
                 set_stats (set_op_counter (buf s) (op_counter (buf s) + 1))
                           (incr_waits_for_space (stats (buf s)))).
  { rewrite Hpark. simpl.
    rewrite (put_on_full _ item (Some d) Hc Hfull). reflexivity. }
  assert (Hp1 : parked (fst parking) t = Some (producer item (Some d) false)).
  { rewrite Hpark. simpl. rewrite Nat.eqb_refl. reflexivity. }
  assert (Hc1 : _closed (buf (fst parking)) = false).
  { rewrite Hbuf. exact Hc. }
  assert (Hfull1 : capacity (buf (fst parking)) <= len (buf (fst parking))).
  { rewrite Hbuf. exact Hfull. }
  destruct (quiet_run t _ others (fst parking) Hmv Hp1 Hc1 Hfull1 Hq)
    as (Hp2 & Hc2 & Hcap2 & Hb2 & Hpu2 & Hg2).
  fold s2 in Hp2, Hc2, Hcap2, Hb2, Hpu2, Hg2.
  assert (Hback : back = (settle s2 t (put_wake (buf s2) item (Some d) false)
                                 None,
                          Some (ob_put t item (Return false)))).
  { subst back. simpl. rewrite Hp2. simpl. unfold put_wake. rewrite Hc2.
    reflexivity. }
  split; [rewrite Hpark; reflexivity|].
  split; [exact Hbuf|].
  split; [simpl; rewrite Hp2; reflexivity|].
  split; [rewrite Hback; reflexivity|].
  split; [rewrite Hback; simpl; rewrite Nat.eqb_refl; reflexivity|].
  assert (Hsame : buf (fst back) = buf s2).
  { rewrite Hback. simpl. unfold put_wake. rewrite Hc2. reflexivity. }
  split; [exact Hsame|].
  split; [rewrite Hb2, Hbuf; reflexivity|].
  split; [rewrite Hpu2, Hbuf; reflexivity|].
  split; [rewrite Hg2, Hbuf; reflexivity|].
  intros Hnil b b'. subst b b'. rewrite Hsame. subst s2. rewrite Hnil.
  simpl sys_run. cbn [fst]. rewrite Hbuf. simpl. repeat split; reflexivity.
Qed.

End TimedPut.

(** * Properties of the sink, the worker and the watchdog *)

Section Sink.

Import Database.

Lemma log_when_running (l : SqlLogger) (event : Metrics.LogEvent) :
  _running l = true ->
  log l event =
  mkLogger (db_path l) (_queue l ++ [Some event]) true (run_id l).
Proof. intros H. unfold log. rewrite H. reflexivity. Qed.

Lemma log_run_id (l : SqlLogger) (event : Metrics.LogEvent) :
  run_id (log l event) = run_id l.
Proof. unfold log. destruct (_running l); reflexivity. Qed.

Lemma log_running (l : SqlLogger) (event : Metrics.LogEvent) :
  _running (log l event) = _running l.
Proof. unfold log. destruct (_running l) eqn:H; simpl; auto. Qed.

Lemma fold_log_queue (evs : list Metrics.LogEvent) : forall l,
  _running l = true ->
  _queue (fold_left log evs l) = _queue l ++ map Some evs.
Proof.
  induction evs as [|e evs IH]; intros l H; simpl.
  - symmetry. apply app_nil_r.
  - rewrite IH by (rewrite log_running; exact H).
    rewrite (log_when_running l e H). simpl.
    rewrite <- app_assoc. reflexivity.
Qed.

(** C10.  While the sink is not running, [log(event)] returns without
    touching the sink: the queue, and with it everything the writer will
    ever read, is as if the call had not been made.  That is the state
    [__init__] leaves before [start()] and the state [stop()] leaves. *)
Theorem log_discards_when_not_running
        (l : SqlLogger) (event : Metrics.LogEvent) :
  (_running l = false ->
   log l event = l /\ _queue (log l event) = _queue l) /\
  (forall path now, log (init path now) event = init path now) /\
  log (stop l) event = stop l /\
  (forall (E : Type) (w : Sim.World E),
     _running (Sim.logger w) = false -> Sim.log event w = (tt, w)).
Proof.
  split; [|split; [|split]].
  - intros H. unfold log. rewrite H. auto.
  - reflexivity.
  - reflexivity.
  - intros E w H. unfold Sim.log, log. rewrite H. destruct w; reflexivity.
Qed.

End Sink.

Section Worker.

Import Sim Base.

Context {E : Type}.

Variable work : Subsystem -> M E Subsystem.

Lemma Qgtb_lt (x y : Q) : Qgtb x y = true <-> (y < x)%Q.
Proof.
  unfold Qgtb. rewrite negb_true_iff.
  split.
  - intros H. apply Qnot_le_lt. intros Hle.
    apply Qle_bool_iff in Hle. congruence.
  - intros H. destruct (Qle_bool x y) eqn:Hb; [|reflexivity].
    apply Qle_bool_iff in Hb. exfalso. exact (Qlt_not_le _ _ H Hb).
Qed.

Lemma drift_sign (completion target : Q) :
  ((completion - target) * 1000 < 0)%Q <-> (completion < target)%Q.
Proof.
  unfold Qlt, Qminus, Qplus, Qmult, Qopp; simpl. split; intros H; nia.
Qed.

(** One pass, computed: after the first clock read and the work, the pass
    reads the wall clock twice and the monotonic clock five times, calls
    [log] once and sleeps once. *)
Lemma run_iteration_eq (self : Subsystem) (next_tick_time : Q) (w : World E)
      (loop_start : Q) (w1 : World E) (s1 : Subsystem) (w2 : World E) :
  perf_counter w = (loop_start, w1) ->
  work self w1 = (s1, w2) ->
  let c := clock w2 in
  let target := (next_tick_time + interval s1)%Q in
  let sleep_duration := (target - mono c (S (mono_reads c)))%Q in
  let e :=
    Metrics.mkEvent
      (Database.run_id (logger w2)) (name s1)
      (wall c (S (wall_reads c))) (mono c (S (S (S (S (mono_reads c))))))
      (Metrics.TickEvent
         (tick_count s1 + 1)
         ((mono c (S (S (mono_reads c))) - loop_start) * 1000)%Q
         ((mono c (S (S (S (mono_reads c)))) - target) * 1000)%Q
         ((mono c (mono_reads c) - loop_start) * 1000)%Q) in
  run_iteration work self next_tick_time w =
  ((mkSubsystem (name s1) (interval s1) (wall c (wall_reads c))
                (tick_count s1 + 1), target),
   mkWorld (mkClock (wall c) (S (S (wall_reads c))) (mono c)
                    (S (S (S (S (S (mono_reads c)))))))
           (Database.log (logger w2) e) (running w2) (warnings w2)
           (sleeps w2 ++ [if Qgtb sleep_duration 0 then sleep_duration
                          else (1 # 100)%Q])
           (env w2)).
Proof.
  intros Hstart Hwork c target sleep_duration e.
  subst c target sleep_duration e.
  unfold run_iteration. unfold bind at 1. rewrite Hstart.
  unfold bind at 1. rewrite Hwork.
  destruct w2 as [[wl wr mn mr] lg rn ws sl en].
  destruct s1 as [nm iv lt tc].
  cbn [clock logger running warnings sleeps env wall wall_reads mono
       mono_reads name interval last_tick_ts tick_count].
  destruct (Qgtb (next_tick_time + iv - mn (S mr)) 0) eqn:Hgt;
    cbv -[Qplus Qminus Qmult Qgtb Z.add Database.log Database.run_id app];
    rewrite Hgt; reflexivity.
Qed.

(** C9.  One pass through the loop body hands exactly one event to the
    sink after the work of the tick, and it is a [TickEvent]: the sink
    after the pass is the sink after the work with one more call of [log].
    The drift of that event is the reading of [perf_counter] taken for it,
    the fourth after the work, less [next_tick_time] advanced by the
    interval, in milliseconds; it is negative exactly when that reading is
    earlier than the advanced [next_tick_time]. *)
Theorem tick_event_per_iteration
        (self : Subsystem) (next_tick_time : Q) (w : World E) :
  let started := snd (perf_counter w) in
  let self1 := fst (work self started) in
  let worked := snd (work self started) in
  let target := (next_tick_time + interval self1)%Q in
  let completion := mono (clock worked) (mono_reads (clock worked) + 3) in
  let r := run_iteration work self next_tick_time w in
  exists e : Metrics.LogEvent,
    logger (snd r) = Database.log (logger worked) e /\
    Metrics.is_tick e = true /\
    Metrics.drift_ms_of e = Some ((completion - target) * 1000)%Q /\
    snd (fst r) = target /\
    (((completion - target) * 1000 < 0)%Q <-> (completion < target)%Q) /\
    Metrics.subsystem e = name self1 /\
    Metrics.run_id e = Database.run_id (logger worked) /\
    tick_count (fst (fst r)) = tick_count self1 + 1 /\
    (Database._running (logger worked) = true ->
     Database._queue (logger (snd r)) =
     Database._queue (logger worked) ++ [Some e]).
Proof.
  intros started self1 worked target completion r.
  destruct (perf_counter w) as [loop_start w1] eqn:Hstart.
  cbn [snd] in started. subst started.
  destruct (work self w1) as [s1 w2] eqn:Hwork.
  cbn [fst snd] in self1, worked. subst self1 worked.
  pose proof (run_iteration_eq self next_tick_time w loop_start w1 s1 w2
                               Hstart Hwork) as Hrun.
  cbv zeta in Hrun. subst r. rewrite Hrun. clear Hrun.
  subst completion target.
  replace (mono_reads (clock w2) + 3)%nat
    with (S (S (S (mono_reads (clock w2))))) by lia.
  eexists. cbn [fst snd logger].
  split; [reflexivity|].
  split; [reflexivity|].
  split; [reflexivity|].
  split; [reflexivity|].
  split; [apply drift_sign|].
  split; [reflexivity|].
  split; [reflexivity|].
  split; [reflexivity|].
  intros Hr. rewrite log_when_running by exact Hr. reflexivity.
Qed.

End Worker.

Section Watchdog.

Import Sim Kernel.

Context {E : Type}.

Lemma is_stalled_iff (now : Q) (s : Base.Subsystem) :
  is_stalled now s = true <->
  (stall_threshold < now - Base.last_tick_ts s)%Q.
Proof. unfold is_stalled. apply Qgtb_lt. Qed.

Lemma for_each_cons {A : Type} (x : A) (xs : list A) (body : A -> M E unit)
      (w : World E) :
  for_each (x :: xs) body w = for_each xs body (snd (body x w)).
Proof.
  cbn [for_each]. unfold bind. destruct (body x w); reflexivity.
Qed.

(** The body of the loop for one worker, computed. *)
Lemma check_subsystem_eq (now : Q) (s : Base.Subsystem) (w : World E) :
  check_subsystem now s w =
  if is_stalled now s then
    let c := clock w in
    let e :=
      Metrics.mkEvent (Database.run_id (logger w)) "Kernel"
                      (wall c (wall_reads c)) (mono c (mono_reads c))
                      (stall_event_of now s) in
    (tt, mkWorld (mkClock (wall c) (S (wall_reads c)) (mono c)
                          (S (mono_reads c)))
                 (Database.log (logger w) e) (running w)
                 (warnings w ++
                  [stalled (Base.name s) (now - Base.last_tick_ts s)])
                 (sleeps w) (env w))
  else (tt, w).
Proof.
  unfold check_subsystem, is_stalled.
  destruct (Qgtb (now - Base.last_tick_ts s) stall_threshold);
    [|reflexivity].
  destruct w as [[wl wr mn mr] lg rn ws sl en]. reflexivity.
Qed.

(** What one pass of the loop over the workers does to the world: the
    stalled workers, in order, each add a warning and one call of [log];
    the others add nothing. *)
Lemma check_subsystems (now : Q) (subs : list Base.Subsystem) :
  forall w : World E,
  let w' := snd (for_each subs (check_subsystem now) w) in
  exists evs : list Metrics.LogEvent,
    logger w' = fold_left Database.log evs (logger w) /\
    map Metrics.body evs =
      map (stall_event_of now) (filter (is_stalled now) subs) /\
    Forall (fun e => Metrics.subsystem e = "Kernel"%string /\
                     Metrics.run_id e = Database.run_id (logger w)) evs /\
    warnings w' =
      warnings w ++
      map (fun s => stalled (Base.name s) (now - Base.last_tick_ts s))
          (filter (is_stalled now) subs) /\
    running w' = running w /\ sleeps w' = sleeps w /\ env w' = env w.
Proof.
  induction subs as [|s subs IH]; intros w.
  - exists []. simpl. rewrite app_nil_r. auto 10.
  - rewrite for_each_cons, check_subsystem_eq. cbn [filter].
    destruct (is_stalled now s) eqn:Hst; cbv zeta; cbn [snd].
    + match goal with
      | |- context [for_each subs _ ?w1] =>
          destruct (IH w1)
            as (evs & Hlog & Hbodies & Hall & Hwarn & Hrun & Hsl & Henv)
      end.
      cbn [logger warnings running sleeps env] in *.
      match type of Hlog with
      | _ = fold_left _ _ (Database.log _ ?ev) => exists (ev :: evs)
      end.
      cbn [fold_left map]. split; [exact Hlog|].
      split; [f_equal; exact Hbodies|].
      split.
      { constructor; [split; reflexivity|].
        eapply Forall_impl; [|exact Hall]. cbv beta.
        intros e [H1 H2]. split; [exact H1|].
        rewrite H2. apply log_run_id. }
      split; [rewrite Hwarn, <- app_assoc; reflexivity|].
      auto.
    + destruct (IH w)
        as (evs & Hlog & Hbodies & Hall & Hwarn & Hrun & Hsl & Henv).
      exists evs. auto 10.
Qed.

Lemma report_queue_logs {T : Type} (b : BoundedBuffer T) (w : World E) :
  exists q : Metrics.LogEvent,
    Metrics.payload_of q = None /\
    logger (snd (report_queue b w)) = Database.log (logger w) q.
Proof.
  unfold report_queue.
  destruct w as [[wl wr mn mr] lg rn ws sl en].
  destruct (len b =? capacity b); eexists; (split; [|reflexivity]);
    reflexivity.
Qed.

Lemma watchdog_period_eq {T : Type} (self : CitySimulation T) (w : World E) :
  let c := clock w in
  watchdog_period self w =
  report_queue (ev_buffer self)
    (snd (for_each (subsystems self) (check_subsystem (wall c (wall_reads c)))
            (mkWorld (mkClock (wall c) (S (wall_reads c)) (mono c)
                              (mono_reads c))
                     (logger w) (running w) (warnings w)
                     (sleeps w ++ [2%Q]) (env w)))).
Proof.
  destruct w as [[wl wr mn mr] lg rn ws sl en]. cbv zeta.
  unfold watchdog_period.
  unfold bind at 1. unfold sleep at 1.
  unfold bind at 1. unfold time at 1.
  cbn [clock logger running warnings sleeps env wall wall_reads mono
       mono_reads].
  unfold bind at 1.
  destruct (for_each _ _ _) as [[] w1]. reflexivity.
Qed.

Lemma stall_event_of_inj (now : Q) (s s' : Base.Subsystem) :
  stall_event_of now s' = stall_event_of now s ->
  is_stalled now s' = is_stalled now s.
Proof.
  unfold stall_event_of, stall_payload, is_stalled. intros H.
  apply (f_equal (fun k => match k with
                           | Metrics.MetricEvent
                               [_; _; (_, Metrics.VFloat d)] => d
                           | _ => 0%Q
                           end)) in H.
  cbv beta iota in H. rewrite H. reflexivity.
Qed.

(** C8.  In one watchdog period, [now] being the reading of [time.time()]
    after the sleep, the events handed to the sink are one stall event for
    every worker with [now - last_tick_ts > 5.0], in the order of the
    workers, followed by the queue statistics.  A stall event carrying a
    worker's name and duration is among them if and only if that worker's
    duration exceeds the threshold; a worker within the threshold adds no
    event and no warning. *)
Theorem watchdog_flags_stalled_workers
        {T : Type} (self : CitySimulation T) (w : World E) :
  let now := wall (clock w) (wall_reads (clock w)) in
  let w' := snd (watchdog_period self w) in
  exists (evs : list Metrics.LogEvent) (q : Metrics.LogEvent),
    logger w' =
      Database.log (fold_left Database.log evs (logger w)) q /\
    map Metrics.body evs =
      map (stall_event_of now) (filter (is_stalled now) (subsystems self)) /\
    Forall (fun e => Metrics.subsystem e = "Kernel"%string) evs /\
    Metrics.payload_of q = None /\
    (forall s, In s (subsystems self) ->
       ((exists e, In e evs /\ Metrics.body e = stall_event_of now s) <->
        (stall_threshold < now - Base.last_tick_ts s)%Q)) /\
    (forall s (w0 : World E),
       (now - Base.last_tick_ts s <= stall_threshold)%Q ->
       check_subsystem now s w0 = (tt, w0)) /\
    (Database._running (logger w) = true ->
     Database._queue (logger w') =
     Database._queue (logger w) ++ map Some evs ++ [Some q]).
Proof.
  intros now w'. subst w'. rewrite watchdog_period_eq. fold now.
  match goal with
  | |- context [for_each _ _ ?w1] => set (w0 := w1)
  end.
  pose proof (check_subsystems now (subsystems self) w0) as Hloop.
  cbv zeta in Hloop.
  set (w1 := snd (for_each (subsystems self) (check_subsystem now) w0)) in *.
  destruct Hloop as (evs & Hlog & Hbodies & Hall & Hwarn & _).
  change (logger w0) with (logger w) in Hlog, Hall.
  destruct (report_queue_logs (ev_buffer self) w1) as (q & Hqp & Hq).
  exists evs, q.
  split; [rewrite Hq, Hlog; reflexivity|].
  split; [exact Hbodies|].
  split; [eapply Forall_impl; [|exact Hall]; simpl; intros e [H _]; exact H|].
  split; [exact Hqp|].
  split.
  { intros s Hin. rewrite <- is_stalled_iff. split.
    - intros (e & He & Hbody).
      assert (Hm : In (Metrics.body e) (map Metrics.body evs))
        by (apply in_map; exact He).
      rewrite Hbodies, Hbody in Hm. apply in_map_iff in Hm.
      destruct Hm as (s' & Heq & Hs'). apply filter_In in Hs'.
      destruct Hs' as [_ Hs']. rewrite <- (stall_event_of_inj now s s' Heq).
      exact Hs'.
    - intros Hst.
      assert (Hm : In (stall_event_of now s) (map Metrics.body evs)).
      { rewrite Hbodies. apply in_map. apply filter_In. auto. }
      apply in_map_iff in Hm. destruct Hm as (e & Hbody & He). eauto. }
  split.
  { intros s w2 Hle. unfold check_subsystem.
    destruct (Qgtb (now - Base.last_tick_ts s) stall_threshold) eqn:Hgt;
      [|reflexivity].
    apply Qgtb_lt in Hgt. exfalso. exact (Qlt_not_le _ _ Hgt Hle). }
  intros Hr. rewrite Hq, Hlog.
  rewrite log_when_running
    by (rewrite <- Hr; clear; induction evs as [|e evs IH] using rev_ind;
        [reflexivity | rewrite fold_left_app; simpl; rewrite log_running;
                       exact IH]).
  simpl. rewrite fold_log_queue by exact Hr. rewrite <- app_assoc.
  reflexivity.
Qed.

End Watchdog.

(** * The statements at concrete executions *)

Section Witnesses.

Import Examples.

Lemma size_within_capacity_witness :
  1 <= 2 /\
  (let b := buf (fst (sys_run backpressure (boot 2 "EV_Charging_Queue"))) in
   capacity b = 2 /\ 0 <= len b <= 2).
Proof.
  split; [lia|].
  apply (size_within_capacity 2 "EV_Charging_Queue" backpressure). lia.
Defined.

(** After [backpressure] the queue holds 30; the next [get] returns it. *)
Lemma fifo_order_witness :
  let r := sys_run backpressure (boot 2 "EV_Charging_Queue") in
  snd (sys_step (Call 1%nat (c_get None)) (fst r)) =
    Some (ob_get 1%nat (Return (Some 30))) /\
  accepted (snd r) =
  delivered (snd r) ++
  30 :: _buffer (buf (fst (sys_step (Call 1%nat (c_get None)) (fst r)))).
Proof.
  split; [reflexivity|].
  exact (proj2 (fifo_order 2 "EV_Charging_Queue" backpressure)
               (Call 1%nat (c_get None)) 1%nat 30 eq_refl).
Defined.

Lemma closed_refuses_items_witness :
  _closed (buf closed_buffer) = true /\
  (let r := sys_run [Call 1%nat (c_put 20 None); Call 2%nat (c_try_put 30);
                     Call 3%nat (c_get None)] closed_buffer in
   accepted (snd r) = [] /\
   _buffer (buf closed_buffer) = delivered (snd r) ++ _buffer (buf (fst r))).
Proof.
  split; [reflexivity|].
  destruct (closed_refuses_items closed_buffer
              [Call 1%nat (c_put 20 None); Call 2%nat (c_try_put 30);
               Call 3%nat (c_get None)] eq_refl)
    as (_ & _ & _ & _ & _ & _ & Hacc & Hq).
  split; [exact Hacc | exact Hq].
Defined.

Lemma get_raises_only_when_drained_witness :
  _closed (buf closed_buffer) = true /\
  parked closed_buffer 5%nat = None /\
  snd (sys_run (repeat (Call 5%nat (c_get None)) 2) closed_buffer) =
  [ob_get 5%nat (Return (Some 10));
   ob_get 5%nat (Raise (StopIteration "Buffer closed and empty"))].
Proof.
  split; [reflexivity|]. split; [reflexivity|].
  exact (proj2 (proj2 (proj2
           (get_raises_only_when_drained closed_buffer None 5%nat)))
           eq_refl eq_refl).
Defined.

Lemma try_put_full_or_closed_witness :
  (_closed (buf full_buffer) = false /\
   capacity (buf full_buffer) <= len (buf full_buffer) /\
   ended (try_put (buf full_buffer) 20) = Return false /\
   drop_count (stats (after (try_put (buf full_buffer) 20))) = 1) /\
  (_closed (buf closed_buffer) = true /\
   ended (try_put (buf closed_buffer) 20) = Return false /\
   after (try_put (buf closed_buffer) 20) = buf closed_buffer).
Proof.
  split.
  - split; [reflexivity|]. split; [vm_compute; discriminate|].
    destruct (proj1 (proj2 (try_put_full_or_closed (buf full_buffer) 20))
                    eq_refl ltac:(vm_compute; discriminate))
      as (Hr & Hd & _).
    split; [exact Hr | exact Hd].
  - split; [reflexivity|].
    destruct (proj2 (proj2 (try_put_full_or_closed (buf closed_buffer) 20))
                    eq_refl)
      as (Hr & Hb & _).
    split; [exact Hr | exact Hb].
Defined.

Lemma put_timeout_on_full_witness :
  parked full_buffer 1%nat = None /\
  _closed (buf full_buffer) = false /\
  capacity (buf full_buffer) <= len (buf full_buffer) /\
  (let parking := sys_step (Call 1%nat (c_put 20 (Some (1 # 5)))) full_buffer in
   let back := sys_step (Resume 1%nat false) (fst parking) in
   snd back = Some (ob_put 1%nat 20 (Return false)) /\
   _buffer (buf (fst back)) = [10] /\
   waits_for_space (stats (buf (fst back))) =
   waits_for_space (stats (buf full_buffer)) + 1).
Proof.
  split; [reflexivity|]. split; [reflexivity|].
  split; [vm_compute; discriminate|].
  destruct (put_timeout_on_full full_buffer 1%nat 20 (1 # 5) []
              eq_refl eq_refl ltac:(vm_compute; discriminate)
              (Forall_nil _) (Forall_nil _))
    as (_ & _ & _ & Hret & _ & _ & _ & _ & _ & Hframe).
  destruct (Hframe eq_refl) as (Hq & _ & _ & _ & _ & _ & Hw & _).
  split; [exact Hret|]. split; [exact Hq | exact Hw].
Defined.

Lemma log_discards_when_not_running_witness :
  let l := Database.init "v2_city.sqlite3" (1000 # 1) in
  let e := Metrics.mkEvent 1000 "Traffic" (1000 # 1) 0
             (Metrics.MetricEvent [("cars"%string, Metrics.VInt 100)]) in
  Database._running l = false /\
  Database.log l e = l /\ Database._queue (Database.log l e) = [].
Proof.
  intros l e. split; [reflexivity|].
  exact (proj1 (log_discards_when_not_running l e) eq_refl).
Defined.

(** With [next_tick_time = 2] and an interval of half a second the target
    is 2.5 s; the pass is complete at 1.25 s, ahead of it. *)
Lemma tick_event_per_iteration_witness :
  let r := Base.run_iteration reporting traffic 2 world in
  let worked := snd (reporting traffic (snd (Sim.perf_counter world))) in
  Database._running (Sim.logger worked) = true /\
  exists e : Metrics.LogEvent,
    Database._queue (Sim.logger (snd r)) =
      Database._queue (Sim.logger worked) ++ [Some e] /\
    Metrics.is_tick e = true /\
    Metrics.drift_ms_of e = Some (((5 # 4) - (2 + (1 # 2))) * 1000)%Q /\
    (((5 # 4) - (2 + (1 # 2))) * 1000 < 0)%Q.
Proof.
  intros r worked. split; [reflexivity|].
  destruct (tick_event_per_iteration reporting traffic 2 world)
    as (e & _ & Htick & Hdrift & _ & Hsign & _ & _ & _ & Hqueue).
  exists e.
  split; [exact (Hqueue eq_refl)|].
  split; [exact Htick|].
  split; [exact Hdrift|].
  apply Hsign. reflexivity.
Defined.

(** [Energy] ticked ten seconds ago, [Traffic] just now: one stall event,
    for [Energy], then the queue statistics. *)
Lemma watchdog_flags_stalled_workers_witness :
  let w' := snd (Kernel.watchdog_period city world) in
  Database._running (Sim.logger world) = true /\
  exists (evs : list Metrics.LogEvent) (q : Metrics.LogEvent),
    Database._queue (Sim.logger w') =
      Database._queue (Sim.logger world) ++ map Some evs ++ [Some q] /\
    map Metrics.body evs = [Kernel.stall_event_of (1000 # 1) energy] /\
    (exists e, In e evs /\
               Metrics.body e = Kernel.stall_event_of (1000 # 1) energy) /\
    ~ (exists e, In e evs /\
                 Metrics.body e = Kernel.stall_event_of (1000 # 1) traffic).
Proof.
  intros w'. split; [reflexivity|].
  destruct (watchdog_flags_stalled_workers city world)
    as (evs & q & _ & Hbodies & _ & _ & Hiff & _ & Hqueue).
  exists evs, q.
  split; [exact (Hqueue eq_refl)|].
  split; [exact Hbodies|].
  split.
  - apply (proj2 (Hiff energy (or_intror (or_introl eq_refl)))). reflexivity.
  - intros H.
    apply (proj1 (Hiff traffic (or_introl eq_refl))) in H.
    vm_compute in H. discriminate H.
Defined.

(** C6, as the spec words it, fails on a closed buffer: [try_put] returns
    [False] but the drop counter stays where it was. *)
Lemma try_put_on_closed_counts_no_drop :
  let b := buf closed_buffer in
  (len b = capacity b \/ _closed b = true) /\
  ~ (ended (try_put b 20) = Return false /\
     drop_count (stats (after (try_put b 20))) = drop_count (stats b) + 1).
Proof.
  intros b. split; [right; reflexivity|].
  intros [_ H]. vm_compute in H. discriminate H.
Qed.

End Witnesses.

(** * The writer thread of the sink *)

Section WriterFacts.

Import Database Writer.

Variable dumps : Metrics.payload -> string.

#[local] Abbreviation row_of := (Writer.row_of dumps).
#[local] Abbreviation _write_batch := (Writer._write_batch dumps).
#[local] Abbreviation writer_pass := (Writer.writer_pass dumps).
#[local] Abbreviation writer_turn := (Writer.writer_turn dumps).
#[local] Abbreviation _writer_loop := (Writer._writer_loop dumps).

Lemma events_app (q1 q2 : list (option Metrics.LogEvent)) :
  events (q1 ++ q2) = events q1 ++ events q2.
Proof.
  induction q1 as [|[e|] q1 IH]; simpl; rewrite ?IH; reflexivity.
Qed.

Lemma events_map_Some (evs : list Metrics.LogEvent) :
  events (map Some evs) = evs.
Proof. induction evs as [|e evs IH]; simpl; rewrite ?IH; reflexivity. Qed.

Lemma write_batch_eq (c : Connection) (batch : list Metrics.LogEvent) :
  _write_batch c batch =
  mkConnection (committed c) (pending c ++ map row_of batch).
Proof.
  unfold Writer._write_batch. revert c.
  induction batch as [|e batch IH]; intros c; simpl.
  - rewrite app_nil_r. destruct c; reflexivity.
  - rewrite IH. unfold execute; simpl. rewrite <- app_assoc. reflexivity.
Qed.

(** What the greedy fetch takes: a run of events from the head of the
    queue, at most [n] of them, and the sentinel if it comes next. *)
Lemma fetch_spec (n : nat) : forall queue batch,
  exists taken : list Metrics.LogEvent,
    snd (fst (fetch n queue batch)) = batch ++ taken /\
    (List.length taken <= n)%nat /\
    queue = map Some taken ++
            (if snd (fetch n queue batch) then [None] else []) ++
            fst (fst (fetch n queue batch)) /\
    (snd (fetch n queue batch) = false ->
     List.length taken = n \/ fst (fst (fetch n queue batch)) = []).
Proof.
  induction n as [|n IH]; intros queue batch.
  - exists []. simpl. rewrite app_nil_r. auto.
  - destruct queue as [|[e|] queue]; simpl.
    + exists []. simpl. rewrite app_nil_r.
      repeat split; auto; lia.
    + destruct (IH queue (batch ++ [e])) as (taken & Hb & Hl & Hq & Hmax).
      exists (e :: taken). rewrite Hb, <- app_assoc. simpl.
      split; [reflexivity|]. split; [lia|].
      split; [f_equal; exact Hq|].
      intros Hs. destruct (Hmax Hs) as [H|H]; [left; lia | right; exact H].
    + exists []. simpl. rewrite app_nil_r.
      repeat split; auto; try lia; intros H; discriminate H.
Qed.

Lemma writer_pass_spec (l : SqlLogger) (c : Connection) :
  pending c = [] ->
  let l' := fst (fst (writer_pass l c)) in
  let c' := snd (fst (writer_pass l c)) in
  exists (batch : list Metrics.LogEvent) (rest : list (option Metrics.LogEvent)),
    _queue l = map Some batch ++ rest /\
    (List.length batch <= BATCH_SIZE)%nat /\
    committed c' = committed c ++ map row_of batch /\
    pending c' = [] /\
    (_queue l' = rest \/ rest = None :: _queue l') /\
    (List.length batch = BATCH_SIZE \/ rest = [] \/
     exists r, rest = None :: r).
Proof.
  intros Hp l' c'. subst l' c'. unfold Writer.writer_pass.
  destruct (_queue l) as [|[item|] queue'] eqn:Hq.
  - exists [], []. simpl. rewrite app_nil_r. repeat split; auto; lia.
  - destruct (fetch_spec (BATCH_SIZE - 1) queue' [item])
      as (taken & Hb & Hl & Hqueue & Hmax).
    destruct (fetch (BATCH_SIZE - 1) queue' [item]) as [[queue'' batch] sent].
    cbn [fst snd] in *. subst batch.
    exists (item :: taken).
    exists ((if sent then [None] else []) ++ queue'').
    rewrite write_batch_eq. unfold commit; cbn [committed pending].
    rewrite Hp. cbn [app map].
    split; [f_equal; exact Hqueue|].
    split; [unfold BATCH_SIZE in *; simpl; lia|].
    split; [reflexivity|]. split; [reflexivity|].
    split; [destruct sent; [right|left]; reflexivity|].
    destruct sent; [right; right; eexists; reflexivity|].
    destruct (Hmax eq_refl) as [H|H].
    + left. unfold BATCH_SIZE in *. simpl. lia.
    + right; left. rewrite H. reflexivity.
  - exists [], (None :: queue'). simpl. rewrite app_nil_r.
    repeat split; auto; try lia. right; right. eexists; reflexivity.
Qed.

(** X1.  One pass of the writer commits one transaction: the events at the
    head of the queue up to the first sentinel, at most [BATCH_SIZE] of
    them, in queue order.  It takes fewer than [BATCH_SIZE] only when the
    queue ends or a sentinel comes next. *)
Theorem writer_pass_batch (l : SqlLogger) (c : Connection) :
  pending c = [] ->
  let l' := fst (fst (writer_pass l c)) in
  let c' := snd (fst (writer_pass l c)) in
  exists (batch : list Metrics.LogEvent) (rest : list (option Metrics.LogEvent)),
    _queue l = map Some batch ++ rest /\
    (List.length batch <= BATCH_SIZE)%nat /\
    committed c' = committed c ++ map row_of batch /\
    pending c' = [] /\
    (_queue l' = rest \/ rest = None :: _queue l') /\
    (List.length batch = BATCH_SIZE \/ rest = [] \/
     exists r, rest = None :: r).
Proof. exact (writer_pass_spec l c). Qed.

(** A turn of the writer moves events from the head of the queue to the
    database and drops sentinels; it loses and repeats nothing. *)
Lemma writer_turn_keeps (l : SqlLogger) (c : Connection) :
  pending c = [] ->
  let l' := fst (fst (writer_turn l c)) in
  let c' := snd (fst (writer_turn l c)) in
  pending c' = [] /\
  committed c' ++ map row_of (events (_queue l')) =
  committed c ++ map row_of (events (_queue l)).
Proof.
  intros Hp l' c'. subst l' c'. unfold Writer.writer_turn.
  destruct (goes_on l); [|simpl; auto].
  destruct (writer_pass_spec l c Hp)
    as (batch & rest & Hq & _ & Hc & Hp' & Hrest & _).
  destruct (Writer.writer_pass dumps l c) as [[l1 c1] e].
  cbn [fst snd] in *.
  assert (He : events rest = events (_queue l1)).
  { destruct Hrest as [H|H]; rewrite H; reflexivity. }
  assert (Hgoal : committed c1 ++ map row_of (events (_queue l1)) =
                  committed c ++ map row_of (events (_queue l))).
  { rewrite Hc, Hq, events_app, events_map_Some, map_app, He.
    rewrite <- app_assoc. reflexivity. }
  destruct e; cbn [fst snd close committed pending]; auto.
Qed.

Lemma sink_step_keeps (m : sink_move) (s : Sink) :
  pending (conn s) = [] ->
  pending (conn (sink_step dumps m s)) = [] /\
  committed (conn (sink_step dumps m s)) ++
    map row_of (events (_queue (logger (sink_step dumps m s)))) =
  committed (conn s) ++
    map row_of (events (_queue (logger s)) ++ logged dumps [m] s).
Proof.
  intros Hp. destruct m; simpl.
  - unfold log. destruct (_running (logger s)); simpl.
    + rewrite events_app. simpl. auto.
    + rewrite app_nil_r. auto.
  - rewrite events_app. simpl. auto.
  - rewrite app_nil_r. destruct (exited s); [auto|].
    pose proof (writer_turn_keeps (logger s) (conn s) Hp) as H.
    destruct (Writer.writer_turn dumps (logger s) (conn s)) as [[l c] e].
    exact H.
Qed.

Lemma logged_app (ms1 ms2 : list sink_move) : forall s,
  logged dumps (ms1 ++ ms2) s =
  logged dumps ms1 s ++ logged dumps ms2 (sink_run dumps ms1 s).
Proof.
  induction ms1 as [|m ms1 IH]; intros s; [reflexivity|].
  simpl. destruct m; rewrite IH; [|reflexivity|reflexivity].
  destruct (_running (logger s)); reflexivity.
Qed.

Lemma sink_run_keeps (ms : list sink_move) : forall s : Sink,
  pending (conn s) = [] ->
  pending (conn (sink_run dumps ms s)) = [] /\
  committed (conn (sink_run dumps ms s)) ++
    map row_of (events (_queue (logger (sink_run dumps ms s)))) =
  committed (conn s) ++
    map row_of (events (_queue (logger s)) ++ logged dumps ms s).
Proof.
  induction ms as [|m ms IH]; intros s Hp.
  - simpl. rewrite app_nil_r. auto.
  - destruct (sink_step_keeps m s Hp) as [Hp1 H1].
    destruct (IH _ Hp1) as [Hp2 H2].
    change (sink_run dumps (m :: ms) s)
      with (sink_run dumps ms (sink_step dumps m s)).
    split; [exact Hp2|]. rewrite H2.
    change (logged dumps (m :: ms) s) with (logged dumps ([m] ++ ms) s).
    rewrite logged_app.
    change (sink_run dumps [m] s) with (sink_step dumps m s).
    rewrite (map_app _ (events _) (logged dumps ms _)), app_assoc, H1.
    rewrite <- app_assoc, <- map_app, <- app_assoc. reflexivity.
Qed.


Lemma fetch_to_sentinel (n : nat) : forall evs batch,
  (List.length evs < n)%nat ->
  fetch n (map Some evs ++ [None]) batch = ([], batch ++ evs, true).
Proof.
  induction n as [|n IH]; intros evs batch Hl; [lia|].
  destruct evs as [|e evs]; simpl.
  - rewrite app_nil_r. reflexivity.
  - rewrite IH by (simpl in Hl; lia). rewrite <- app_assoc. reflexivity.
Qed.

Lemma fetch_to_end (n : nat) : forall evs batch,
  (List.length evs <= n)%nat ->
  fetch n (map Some evs) batch = ([], batch ++ evs, false).
Proof.
  induction n as [|n IH]; intros evs batch Hl.
  - destruct evs; [|simpl in Hl; lia]. simpl. rewrite app_nil_r. reflexivity.
  - destruct evs as [|e evs]; simpl.
    + rewrite app_nil_r. reflexivity.
    + rewrite IH by (simpl in Hl; lia). rewrite <- app_assoc. reflexivity.
Qed.

Lemma fetch_full (n : nat) : forall evs fin batch,
  (n <= List.length evs)%nat ->
  fetch n (map Some evs ++ fin) batch =
  (map Some (skipn n evs) ++ fin, batch ++ firstn n evs, false).
Proof.
  induction n as [|n IH]; intros evs fin batch Hl.
  - simpl. rewrite app_nil_r. reflexivity.
  - destruct evs as [|e evs]; [simpl in Hl; lia|]. simpl.
    rewrite IH by (simpl in Hl; lia). rewrite <- app_assoc. reflexivity.
Qed.

(** The writer on a queue of events that ends in the sentinel, or on a
    queue of events of a sink that is no longer running: it commits the
    events, fifty per transaction, and leaves its loop. *)
Lemma writer_drains (fuel : nat) : forall (evs : list Metrics.LogEvent)
    (fin : list (option Metrics.LogEvent)) (l : SqlLogger) (c : Connection),
  pending c = [] ->
  _queue l = map Some evs ++ fin ->
  fin = [None] \/ (fin = [] /\ _running l = false) ->
  (List.length evs / 50 + 2 <= fuel)%nat ->
  exists l' c',
    _writer_loop fuel l c = (l', c', true) /\
    _queue l' = [] /\
    committed c' = committed c ++ map row_of evs /\
    pending c' = [].
Proof.
  induction fuel as [|fuel IH]; intros evs fin l c Hp Hq Hfin Hfuel; [lia|].
  destruct evs as [|item evs].
  - (* nothing but the end of the queue is left *)
    simpl in Hq. cbn [Writer._writer_loop]. unfold Writer.writer_turn, goes_on.
    destruct Hfin as [-> | [-> Hr]].
    + rewrite Hq, orb_true_r. unfold Writer.writer_pass. rewrite Hq.
      eexists; eexists. split; [reflexivity|].
      simpl. rewrite app_nil_r. auto.
    + rewrite Hq, Hr. simpl.
      eexists; eexists. split; [reflexivity|].
      simpl. rewrite app_nil_r. auto.
  - cbn [Writer._writer_loop]. unfold Writer.writer_turn, goes_on.
    rewrite Hq. cbn [map app]. rewrite orb_true_r.
    unfold Writer.writer_pass. rewrite Hq. cbn [map app].
    change (BATCH_SIZE - 1)%nat with 49%nat.
    destruct (Nat.lt_ge_cases (List.length evs) 49) as [Hshort | Hlong].
    + (* the last batch *)
      assert (Hfetch : exists sent,
                 fetch 49 (map Some evs ++ fin) [item] =
                 ([], item :: evs, sent) /\
                 (if sent then false else _running l) = false).
      { destruct Hfin as [-> | [-> Hr]].
        - exists true. rewrite fetch_to_sentinel by exact Hshort. auto.
        - exists false. rewrite app_nil_r, fetch_to_end by lia. auto. }
      destruct Hfetch as (sent & -> & Hrun). rewrite Hrun.
      rewrite write_batch_eq. unfold commit; cbn [committed pending].
      rewrite Hp. cbn [app].
      destruct fuel as [|fuel]; [lia|].
      cbn [Writer._writer_loop]. unfold Writer.writer_turn, goes_on. simpl.
      eexists; eexists. split; [reflexivity|]. auto.
    + rewrite fetch_full by exact Hlong.
      rewrite write_batch_eq. unfold commit; cbn [committed pending].
      rewrite Hp. cbn [app].
      match goal with
      | |- context [Writer._writer_loop dumps fuel ?l1 ?c1] =>
          destruct (IH (skipn 49 evs) fin l1 c1) as (l' & c' & Hloop & Hq' & Hc' & Hp')
      end.
      * reflexivity.
      * reflexivity.
      * destruct Hfin as [-> | [-> Hr]]; [left; reflexivity|].
        right. split; [reflexivity | exact Hr].
      * rewrite length_skipn. cbn [List.length] in Hfuel.
        assert (H : (S (List.length evs) / 50 =
                     S ((List.length evs - 49) / 50))%nat).
        { replace (S (List.length evs))
            with ((List.length evs - 49) + 1 * 50)%nat by lia.
          rewrite Nat.div_add by lia. lia. }
        rewrite H in Hfuel. lia.
      * exists l', c'. rewrite Hloop. split; [reflexivity|].
        split; [exact Hq'|]. split; [|exact Hp'].
        rewrite Hc'. cbn [committed].
        rewrite <- app_assoc, <- map_app. cbn [app].
        rewrite firstn_skipn. reflexivity.
Qed.

Lemma turns_after_exit (k : nat) (l : SqlLogger) (c : Connection) :
  sink_run dumps (repeat do_turn k) (mkSink l c true) = mkSink l c true.
Proof. induction k as [|k IH]; [reflexivity | exact IH]. Qed.

(** Turns of the writer thread are the passes of its loop. *)
Lemma turns_are_the_loop (k : nat) : forall (l : SqlLogger) (c : Connection),
  sink_run dumps (repeat do_turn k) (mkSink l c false) =
  mkSink (fst (fst (_writer_loop k l c))) (snd (fst (_writer_loop k l c)))
         (snd (_writer_loop k l c)).
Proof.
  induction k as [|k IH]; intros l c; [reflexivity|].
  cbn [repeat]. unfold sink_run. cbn [fold_left]. fold (sink_run dumps).
  cbn [sink_step exited logger conn Writer._writer_loop].
  destruct (Writer.writer_turn dumps l c) as [[l1 c1] [|]].
  - apply turns_after_exit.
  - apply IH.
Qed.

Lemma no_sentinel_events (q : list (option Metrics.LogEvent)) :
  ~ In None q -> q = map Some (events q).
Proof.
  induction q as [|[e|] q IH]; intros H; simpl.
  - reflexivity.
  - f_equal. apply IH. intros Hin. apply H. right. exact Hin.
  - exfalso. apply H. left. reflexivity.
Qed.

(** Before [stop], the sink runs, its queue holds no sentinel and the
    writer stays in its loop. *)
Lemma sink_step_live (m : sink_move) (s : Sink) :
  m <> do_stop ->
  _running (logger s) = true -> exited s = false ->
  ~ In None (_queue (logger s)) ->
  _running (logger (sink_step dumps m s)) = true /\
  exited (sink_step dumps m s) = false /\
  ~ In None (_queue (logger (sink_step dumps m s))).
Proof.
  intros Hm Hr He Hq. destruct m as [event| |]; [| contradiction |].
  - simpl. unfold log. rewrite Hr. simpl.
    repeat split; auto. intros Hin. apply in_app_or in Hin.
    destruct Hin as [Hin | [Hin | []]]; [auto | discriminate Hin].
  - cbn [sink_step]. rewrite He.
    unfold Writer.writer_turn, goes_on. rewrite Hr. cbn [orb].
    unfold Writer.writer_pass.
    destruct (_queue (logger s)) as [|[item|] queue'] eqn:Hqueue.
    + simpl. rewrite Hqueue. auto.
    + destruct (fetch_spec (BATCH_SIZE - 1) queue' [item])
        as (taken & _ & _ & Hshape & _).
      destruct (fetch (BATCH_SIZE - 1) queue' [item])
        as [[queue'' batch] sent].
      cbn [fst snd] in Hshape. cbn [logger exited _running _queue].
      assert (Hno : ~ In None queue').
      { intros Hin. apply Hq. right. exact Hin. }
      destruct sent.
      * exfalso. apply Hno. rewrite Hshape.
        apply in_or_app. right. left. reflexivity.
      * repeat split; auto. intros Hin. apply Hno. rewrite Hshape.
        apply in_or_app. right. exact Hin.
    + exfalso. apply Hq. left. reflexivity.
Qed.

Lemma sink_run_live (ms : list sink_move) : forall s : Sink,
  ~ In do_stop ms ->
  _running (logger s) = true -> exited s = false ->
  ~ In None (_queue (logger s)) ->
  _running (logger (sink_run dumps ms s)) = true /\
  exited (sink_run dumps ms s) = false /\
  ~ In None (_queue (logger (sink_run dumps ms s))).
Proof.
  induction ms as [|m ms IH]; intros s Hms Hr He Hq; [auto|].
  assert (Hm : m <> do_stop).
  { intros ->. apply Hms. left. reflexivity. }
  destruct (sink_step_live m s Hm Hr He Hq) as (Hr1 & He1 & Hq1).
  apply (IH (sink_step dumps m s)); auto.
  intros Hin. apply Hms. right. exact Hin.
Qed.

Lemma table_app (shape : row -> bool) (c : Connection) (rows : list row)
      (c' : Connection) :
  committed c' = committed c ++ rows ->
  table shape c' = table shape c ++ filter shape rows.
Proof. intros H. unfold table. rewrite H. apply filter_app. Qed.

Lemma ticks_of_events (evs : list Metrics.LogEvent) :
  filter is_ticks (map row_of evs) = map row_of (filter Metrics.is_tick evs).
Proof.
  induction evs as [|e evs IH]; [reflexivity|]. simpl.
  unfold Writer.row_of at 1, Metrics.is_tick.
  destruct (Metrics.body e) eqn:Hb; simpl; rewrite IH; try reflexivity.
Qed.



End WriterFacts.

(** * The tick loop over several passes *)

Section WorkerLoop.

Import Sim Base Readings.

Context {E : Type}.

Variable work : Subsystem -> M E Subsystem.

Lemma run_loop_S (fuel : nat) (self : Subsystem) (next_tick_time : Q)
      (w : World E) :
  run_loop work (S fuel) self next_tick_time w =
  if running w then
    run_loop work fuel
             (fst (fst (run_iteration work self next_tick_time w)))
             (snd (fst (run_iteration work self next_tick_time w)))
             (snd (run_iteration work self next_tick_time w))
  else ((self, next_tick_time), w).
Proof.
  cbn [run_loop]. unfold bind at 1. unfold is_set.
  destruct (running w); [|reflexivity].
  unfold bind at 1.
  destruct (run_iteration work self next_tick_time w) as [[s1 nt1] w1].
  reflexivity.
Qed.

(** One pass, read off its equation: the fields of the worker and the
    schedule after it. *)
Lemma run_iteration_fields (self : Subsystem) (next_tick_time : Q)
      (w : World E) :
  let worked := work self (snd (perf_counter w)) in
  let r := run_iteration work self next_tick_time w in
  name (fst (fst r)) = name (fst worked) /\
  interval (fst (fst r)) = interval (fst worked) /\
  tick_count (fst (fst r)) = tick_count (fst worked) + 1 /\
  last_tick_ts (fst (fst r)) =
    wall (clock (snd worked)) (wall_reads (clock (snd worked))) /\
  snd (fst r) = (next_tick_time + interval (fst worked))%Q /\
  running (snd r) = running (snd worked).
Proof.
  intros worked r. subst worked r.
  destruct (perf_counter w) as [loop_start w1] eqn:Hstart. cbn [snd] in *.
  destruct (work self w1) as [s1 w2] eqn:Hwork.
  pose proof (run_iteration_eq work self next_tick_time w loop_start w1 s1 w2
                               Hstart Hwork) as Hrun.
  cbv zeta in Hrun. rewrite Hrun.
  cbn [fst snd name interval tick_count last_tick_ts running]. auto 10.
Qed.

(** X5.  Drift compensation.  When the work of a tick leaves the interval
    and the tick counter of the worker alone, the loop makes some number of
    passes, all [fuel] of them if the running flag is still set at the
    end; the tick counter has grown by that number, and [next_tick_time]
    by that number of intervals, however long the passes took. *)
Theorem run_loop_keeps_schedule (fuel : nat) :
  (forall s w, interval (fst (work s w)) = interval s /\
               tick_count (fst (work s w)) = tick_count s) ->
  forall (self : Subsystem) (next_tick_time : Q) (w : World E),
  let r := run_loop work fuel self next_tick_time w in
  exists passes : nat,
    (passes <= fuel)%nat /\
    tick_count (fst (fst r)) = tick_count self + Z.of_nat passes /\
    interval (fst (fst r)) = interval self /\
    (snd (fst r) ==
     next_tick_time + inject_Z (Z.of_nat passes) * interval self)%Q /\
    (running (snd r) = true -> passes = fuel).
Proof.
  intros Hwork. induction fuel as [|fuel IH]; intros self next_tick_time w r.
  - exists 0%nat. subst r. simpl. repeat split; auto; try lia. ring.
  - subst r. rewrite run_loop_S.
    destruct (running w) eqn:Hrun.
    + destruct (run_iteration_fields self next_tick_time w)
        as (_ & Hint & Htc & _ & Hnt & _).
      destruct (Hwork self (snd (perf_counter w))) as [Hi Ht].
      rewrite Hi in Hint, Hnt. rewrite Ht in Htc.
      destruct (IH (fst (fst (run_iteration work self next_tick_time w)))
                   (snd (fst (run_iteration work self next_tick_time w)))
                   (snd (run_iteration work self next_tick_time w)))
        as (passes & Hle & Htc' & Hint' & Hnt' & Hall).
      exists (S passes).
      split; [lia|]. split; [rewrite Htc', Htc; lia|].
      split; [rewrite Hint', Hint; reflexivity|].
      split; [|intros H; f_equal; exact (Hall H)].
      rewrite Hnt', Hnt, Hint.
      rewrite Nat2Z.inj_succ. unfold Z.succ. rewrite inject_Z_plus. ring.
    + exists 0%nat. cbn [fst snd]. rewrite Hrun.
      repeat split; auto; try lia; try discriminate. ring.
Qed.

(** X6.  Every pass ends with exactly one [time.sleep], of a strictly
    positive duration: the time left to [next_tick_time] when there is
    some, a hundredth of a second otherwise. *)
Theorem run_iteration_sleeps_once (self : Subsystem) (next_tick_time : Q)
        (w : World E) :
  let worked := work self (snd (perf_counter w)) in
  let c := clock (snd worked) in
  let left := (next_tick_time + interval (fst worked)
               - mono c (S (mono_reads c)))%Q in
  let r := run_iteration work self next_tick_time w in
  exists d : Q,
    sleeps (snd r) = sleeps (snd worked) ++ [d] /\
    (0 < d)%Q /\
    ((0 < left)%Q -> d = left) /\
    ((left <= 0)%Q -> d = (1 # 100)%Q).
Proof.
  intros worked c left r. subst worked c left r.
  destruct (perf_counter w) as [loop_start w1] eqn:Hstart. cbn [snd] in *.
  destruct (work self w1) as [s1 w2] eqn:Hwork.
  pose proof (run_iteration_eq work self next_tick_time w loop_start w1 s1 w2
                               Hstart Hwork) as Hrun.
  cbv zeta in Hrun. rewrite Hrun. cbn [fst snd sleeps].
  match goal with
  | |- context [if Qgtb ?x 0 then _ else _] =>
      destruct (Qgtb x 0) eqn:Hgt; [exists x | exists (1 # 100)%Q]
  end.
  - apply Qgtb_lt in Hgt.
    split; [reflexivity|]. split; [exact Hgt|]. split; [reflexivity|].
    intros Hle. exfalso. exact (Qlt_not_le _ _ Hgt Hle).
  - split; [reflexivity|]. split; [reflexivity|]. split; [|reflexivity].
    intros Hpos. apply Qgtb_lt in Hpos. congruence.
Qed.

(** X7.  The tick event of a pass carries the new tick counter as its
    sequence number, and, when [perf_counter] does not go backwards between
    the end of the work and the reading taken for the latency, the work
    time it reports is at most the latency it reports. *)
Theorem tick_event_is_consistent (self : Subsystem) (next_tick_time : Q)
        (w : World E) :
  let worked := work self (snd (perf_counter w)) in
  let c := clock (snd worked) in
  let r := run_iteration work self next_tick_time w in
  (mono c (mono_reads c) <= mono c (S (S (mono_reads c))))%Q ->
  exists (e : Metrics.LogEvent) (latency work_time : Q),
    logger (snd r) = Database.log (logger (snd worked)) e /\
    tick_seq_of e = Some (tick_count (fst (fst r))) /\
    latency_ms_of e = Some latency /\
    work_time_ms_of e = Some work_time /\
    (work_time <= latency)%Q.
Proof.
  intros worked c r Hmono. subst worked c r.
  destruct (perf_counter w) as [loop_start w1] eqn:Hstart. cbn [snd] in *.
  destruct (work self w1) as [s1 w2] eqn:Hwork.
  pose proof (run_iteration_eq work self next_tick_time w loop_start w1 s1 w2
                               Hstart Hwork) as Hrun.
  cbv zeta in Hrun. rewrite Hrun. cbn [fst snd logger tick_count] in *.
  eexists. eexists. eexists.
  split; [reflexivity|]. split; [reflexivity|].
  split; [reflexivity|]. split; [reflexivity|].
  apply Qmult_le_compat_r; [|discriminate].
  unfold Qminus. apply Qplus_le_compat; [exact Hmono | apply Qle_refl].
Qed.

End WorkerLoop.

(** * The watchdog over several periods *)

Section WatchdogLoop.

Import Sim Kernel Readings.

Context {E T : Type}.

Lemma report_queue_eq (b : BoundedBuffer T) (w : World E) :
  let c := clock w in
  let q := Metrics.mkEvent (Database.run_id (logger w)) "Kernel"
             (wall c (wall_reads c)) (mono c (mono_reads c))
             (Metrics.QueueStatEvent (name b) (len b) (capacity b)
                (drop_count (stats b))) in
  report_queue b w =
  (tt, mkWorld (mkClock (wall c) (S (wall_reads c)) (mono c)
                        (S (mono_reads c)))
               (Database.log (logger w) q) (running w)
               (warnings w ++
                (if len b =? capacity b
                 then [buffer_full (name b) (len b)] else []))
               (sleeps w) (env w)).
Proof.
  destruct w as [[wl wr mn mr] lg rn ws sl en]. cbv zeta.
  unfold report_queue.
  destruct (len b =? capacity b); cbn; rewrite ?app_nil_r; reflexivity.
Qed.

Lemma stall_events_are_metrics (now : Q) (subs : list Base.Subsystem) :
  forall evs : list Metrics.LogEvent,
  map Metrics.body evs = map (stall_event_of now) subs ->
  Forall (fun e => is_queue_stat e = false) evs.
Proof.
  induction subs as [|s subs IH]; intros [|e evs] H; try discriminate H;
    constructor.
  - simpl in H. injection H as He _. unfold is_queue_stat. rewrite He.
    reflexivity.
  - apply IH. simpl in H. injection H as _ H. exact H.
Qed.

Lemma watchdog_period_effect (self : CitySimulation T) (w : World E) :
  let b := ev_buffer self in
  let now := wall (clock w) (wall_reads (clock w)) in
  let w' := snd (watchdog_period self w) in
  exists (evs : list Metrics.LogEvent) (q : Metrics.LogEvent),
    logger w' = Database.log (fold_left Database.log evs (logger w)) q /\
    Forall (fun e => is_queue_stat e = false) evs /\
    Metrics.body q =
      Metrics.QueueStatEvent (name b) (len b) (capacity b)
                             (drop_count (stats b)) /\
    Metrics.subsystem q = "Kernel"%string /\
    Metrics.run_id q = Database.run_id (logger w) /\
    warnings w' =
      warnings w ++
      map (fun s => stalled (Base.name s) (now - Base.last_tick_ts s))
          (filter (is_stalled now) (subsystems self)) ++
      (if len b =? capacity b then [buffer_full (name b) (len b)] else []) /\
    running w' = running w /\
    sleeps w' = sleeps w ++ [2%Q].
Proof.
  intros b now w'. subst b w'. rewrite watchdog_period_eq. fold now.
  match goal with
  | |- context [for_each _ _ ?w1] => set (w0 := w1)
  end.
  pose proof (check_subsystems now (subsystems self) w0) as Hloop.
  cbv zeta in Hloop.
  remember (snd (for_each (subsystems self) (check_subsystem now) w0)) as w1
    eqn:Hw1. clear Hw1.
  destruct Hloop as (evs & Hlog & Hbodies & Hall & Hwarn & Hrun & Hsl & _).
  pose proof (report_queue_eq (ev_buffer self) w1) as Hq. cbv zeta in Hq.
  rewrite Hq. cbn [snd logger warnings running sleeps].
  eexists evs, _.
  split; [rewrite Hlog; reflexivity|].
  split; [exact (stall_events_are_metrics _ _ _ Hbodies)|].
  split; [reflexivity|]. split; [reflexivity|].
  split.
  { cbn [Metrics.run_id]. change (logger w) with (logger w0).
    clear. generalize (logger w0).
    induction evs as [|e evs IH]; intros l; [reflexivity|].
    simpl. rewrite IH. apply log_run_id. }
  split; [rewrite Hwarn, <- app_assoc; reflexivity|].
  split; [exact Hrun | exact Hsl].
Qed.

(** X8.  Every watchdog period, whatever the state of the workers and of
    the buffer, ends by handing to the sink one [QueueStatEvent] with the
    name, the size, the capacity and the drop counter of the buffer; the
    events before it in the period are the stall events.  The period warns
    that the buffer is full exactly when the size equals the capacity, and
    it sleeps once, for two seconds. *)
Theorem watchdog_reports_queue (self : CitySimulation T) (w : World E) :
  let b := ev_buffer self in
  let now := wall (clock w) (wall_reads (clock w)) in
  let w' := snd (watchdog_period self w) in
  exists (evs : list Metrics.LogEvent) (q : Metrics.LogEvent),
    logger w' = Database.log (fold_left Database.log evs (logger w)) q /\
    Forall (fun e => is_queue_stat e = false) evs /\
    Metrics.body q =
      Metrics.QueueStatEvent (name b) (len b) (capacity b)
                             (drop_count (stats b)) /\
    Metrics.subsystem q = "Kernel"%string /\
    Metrics.run_id q = Database.run_id (logger w) /\
    warnings w' =
      warnings w ++
      map (fun s => stalled (Base.name s) (now - Base.last_tick_ts s))
          (filter (is_stalled now) (subsystems self)) ++
      (if len b =? capacity b then [buffer_full (name b) (len b)] else []) /\
    running w' = running w /\
    sleeps w' = sleeps w ++ [2%Q].
Proof. exact (watchdog_period_effect self w). Qed.

Lemma fold_log_running (evs : list Metrics.LogEvent) : forall l,
  Database._running (fold_left Database.log evs l) = Database._running l.
Proof.
  induction evs as [|e evs IH]; intros l; [reflexivity|].
  simpl. rewrite IH. apply log_running.
Qed.

Lemma queue_stats_count (evs : list Metrics.LogEvent) (q : Metrics.LogEvent)
      (old : list (option Metrics.LogEvent)) :
  Forall (fun e => is_queue_stat e = false) evs ->
  is_queue_stat q = true ->
  List.length (filter is_queue_stat
                 (Writer.events (old ++ map Some evs ++ [Some q]))) =
  S (List.length (filter is_queue_stat (Writer.events old))).
Proof.
  intros Hevs Hq.
  rewrite !events_app, events_map_Some, !filter_app. cbn [Writer.events filter].
  rewrite Hq.
  assert (H : filter is_queue_stat evs = []).
  { induction Hevs as [|e evs He _ IH]; [reflexivity|].
    simpl. rewrite He. exact IH. }
  rewrite H, !length_app. simpl. lia.
Qed.

Lemma watchdog_loop_S (fuel : nat) (self : CitySimulation T) (w : World E) :
  _watchdog_loop (S fuel) self w =
  if running w then _watchdog_loop fuel self (snd (watchdog_period self w))
  else (tt, w).
Proof.
  cbn [_watchdog_loop]. unfold bind at 1. unfold is_set.
  destruct (running w); [|reflexivity].
  unfold bind at 1. destruct (watchdog_period self w) as [[] w1].
  reflexivity.
Qed.

(** X9.  With the running flag cleared the watchdog loop does nothing.
    With the flag set and the sink running, every period adds one queue
    statistic to the sink and sleeps once: after [fuel] periods the queue of
    the sink holds [fuel] more queue statistics. *)
Theorem watchdog_loop_reports_every_period
        (fuel : nat) (self : CitySimulation T) : forall w : World E,
  (running w = false -> _watchdog_loop fuel self w = (tt, w)) /\
  (running w = true -> Database._running (logger w) = true ->
   let w' := snd (_watchdog_loop fuel self w) in
   List.length (filter is_queue_stat
                  (Writer.events (Database._queue (logger w')))) =
   (List.length (filter is_queue_stat
                   (Writer.events (Database._queue (logger w)))) + fuel)%nat /\
   List.length (sleeps w') = (List.length (sleeps w) + fuel)%nat /\
   running w' = true).
Proof.
  induction fuel as [|fuel IH]; intros w.
  - split; [reflexivity|]. intros Hr _. cbn [_watchdog_loop ret snd].
    rewrite !Nat.add_0_r. auto.
  - rewrite watchdog_loop_S. split.
    + intros Hr. rewrite Hr. reflexivity.
    + intros Hr Hs w'. subst w'. rewrite Hr.
      destruct (watchdog_period_effect self w)
        as (evs & q & Hlog & Hevs & Hq & _ & _ & _ & Hrun & Hsl).
      remember (snd (watchdog_period self w)) as w1 eqn:Hw1. clear Hw1.
      assert (Hs1 : Database._running (logger w1) = true).
      { rewrite Hlog, log_running, fold_log_running. exact Hs. }
      assert (Hqueue : Database._queue (logger w1) =
                       Database._queue (logger w) ++ map Some evs ++ [Some q]).
      { rewrite Hlog, log_when_running
          by (rewrite fold_log_running; exact Hs).
        cbn [Database._queue]. rewrite fold_log_queue by exact Hs.
        rewrite <- app_assoc. reflexivity. }
      destruct (IH w1) as [_ Hloop].
      rewrite Hrun in Hloop.
      destruct (Hloop Hr Hs1) as (Hcount & Hsleeps & Hrun').
      split; [|split; [|exact Hrun']].
      * rewrite Hcount, Hqueue, queue_stats_count; auto; try lia.
        unfold is_queue_stat. rewrite Hq. reflexivity.
      * rewrite Hsleeps, Hsl, length_app. simpl. lia.
Qed.

End WatchdogLoop.

(** * Scenarios and the lifecycle of the orchestrator *)

Section Lifecycle.

Import Sim Scenarios Readings.

Context {E T : Type}.

Implicit Types (self : Orchestrator T) (w : World E).

Lemma set_scenario_eq self (name : option string) w :
  let c := clock w in
  let old := active_scenario (scenario_manager self) in
  let e := Metrics.mkEvent (Database.run_id (logger w)) "ScenarioManager"
             (wall c (S (wall_reads c))) (mono c (mono_reads c))
             (Metrics.MetricEvent
                (scenario_payload old name (wall c (wall_reads c)))) in
  _set_scenario self name w =
  (mkOrchestrator (simulation self) name
                  (mkManager name (_stop_event (scenario_manager self))),
   mkWorld (mkClock (wall c) (S (S (wall_reads c))) (mono c)
                    (S (mono_reads c)))
           (Database.log (logger w) e) (running w) (warnings w) (sleeps w)
           (env w)).
Proof.
  destruct w as [[wl wr mn mr] lg rn ws sl en]. reflexivity.
Qed.

(** What one toggle does to the scenario, and what it tells the sink. *)
Lemma toggle_effect self (name : string) w :
  let old := active_scenario (scenario_manager self) in
  let new := if is_active (scenario_manager self) name then None
             else Some name in
  let r := toggle_scenario self name w in
  active_scenario (scenario_manager (fst r)) = new /\
  shared_scenario (fst r) = new /\
  simulation (fst r) = simulation self /\
  _stop_event (scenario_manager (fst r)) =
    _stop_event (scenario_manager self) /\
  exists e,
    logger (snd r) = Database.log (logger w) e /\
    Metrics.subsystem e = "ScenarioManager"%string /\
    is_event "scenario_change" e = true /\
    Metrics.payload_of e =
      Some (scenario_payload old new
              (wall (clock w) (wall_reads (clock w)))).
Proof.
  intros old new r. subst old new r. unfold toggle_scenario.
  destruct (is_active (scenario_manager self) name);
    rewrite set_scenario_eq; cbn [fst snd logger scenario_manager
      active_scenario shared_scenario simulation _stop_event];
    repeat split; eexists; repeat split.
Qed.

Lemma toggles_cons (name : string) (names : list string) self w :
  toggles (name :: names) self w =
  toggles names (fst (toggle_scenario self name w))
          (snd (toggle_scenario self name w)).
Proof.
  cbn [toggles]. unfold bind.
  destruct (toggle_scenario self name w); reflexivity.
Qed.

(** X10.  After any non-empty sequence of toggles the scenario that the
    subsystems read is the one the manager holds; it is the name toggled
    last or none, never an earlier one: at most one scenario is active.
    The sink has been handed one [scenario_change] event per toggle, and
    the buffer and the workers are untouched. *)
Theorem toggles_keep_one_scenario (names : list string) : forall self w,
  names <> [] ->
  let r := toggles names self w in
  shared_scenario (fst r) = active_scenario (scenario_manager (fst r)) /\
  (active_scenario (scenario_manager (fst r)) = None \/
   active_scenario (scenario_manager (fst r)) = Some (last names ""%string)) /\
  simulation (fst r) = simulation self /\
  exists evs,
    List.length evs = List.length names /\
    Forall (fun e => is_event "scenario_change" e = true) evs /\
    logger (snd r) = fold_left Database.log evs (logger w).
Proof.
  induction names as [|name names IH]; intros self w Hne r; [contradiction|].
  subst r. rewrite toggles_cons.
  destruct (toggle_effect self name w)
    as (Hact & Hsh & Hsim & _ & e & Hlog & _ & Hev & _).
  destruct names as [|name' names].
  - cbn [toggles ret fst snd last].
    split; [rewrite Hact, Hsh; reflexivity|].
    split; [rewrite Hact; destruct (is_active _ _); auto|].
    split; [exact Hsim|].
    exists [e]. repeat split; auto.
  - destruct (IH (fst (toggle_scenario self name w))
                 (snd (toggle_scenario self name w)))
      as (Hmirror & Hlast & Hsim' & evs & Hlen & Hall & Hlog');
      [discriminate|].
    split; [exact Hmirror|].
    split; [exact Hlast|].
    split; [rewrite Hsim', Hsim; reflexivity|].
    exists (e :: evs).
    split; [simpl in *; rewrite Hlen; reflexivity|].
    split; [constructor; assumption|].
    rewrite Hlog', Hlog. reflexivity.
Qed.

(** X11.  Toggling the same name twice in a row restores the scenario only
    if it was that one: when another scenario, or none, was active, the
    first toggle replaces it and the second leaves no scenario active. *)
Theorem toggle_twice self (name : string) w :
  let r := toggles [name; name] self w in
  active_scenario (scenario_manager (fst r)) =
  (if is_active (scenario_manager self) name then Some name else None).
Proof.
  intros r. subst r. rewrite toggles_cons, toggles_cons. cbn [toggles ret fst].
  destruct (toggle_effect self name w) as (Hact & _).
  destruct (toggle_effect (fst (toggle_scenario self name w)) name
                          (snd (toggle_scenario self name w))) as (Hact' & _).
  rewrite Hact'. unfold is_active at 1. rewrite Hact.
  destruct (is_active (scenario_manager self) name); [reflexivity|].
  rewrite String.eqb_refl. reflexivity.
Qed.



End Lifecycle.

(** * Traffic and Energy alone with the buffer *)

Section AloneFacts.

Import Sim Subsystems Alone Readings.

Variable t : tid.

Implicit Types (s : System request) (w : World (System request)).

Lemma put_with_room (b : BoundedBuffer request) item timeout :
  _closed b = false -> len b < capacity b ->
  put b item timeout =
  mkSection (set_stats (set_buffer (set_op_counter b (op_counter b + 1))
                                   (_buffer b ++ [item]))
                       (incr_puts (stats b)))
            (Return true) [notify _not_empty].
Proof.
  intros Hc Hroom. unfold put, put_loop.
  change (_closed (set_op_counter b (op_counter b + 1))) with (_closed b).
  change (len (set_op_counter b (op_counter b + 1))) with (len b).
  change (capacity (set_op_counter b (op_counter b + 1))) with (capacity b).
  rewrite Hc. destruct (len b >=? capacity b) eqn:Hge; [lia | reflexivity].
Qed.

(** The three ends of a timed [put] made alone. *)
Lemma put_alone_closed s item d :
  parked s t = None -> _closed (buf s) = true ->
  fst (put_alone t item (Some d) s) = Raise (ValueError (closed_msg (buf s))) /\
  buf (snd (put_alone t item (Some d) s)) =
    set_op_counter (buf s) (op_counter (buf s) + 1) /\
  parked (snd (put_alone t item (Some d) s)) t = None.
Proof.
  intros Hp Hc. unfold put_alone. cbn [sys_step]. rewrite Hp.
  rewrite (put_when_closed _ item (Some d) Hc). cbn.
  rewrite Nat.eqb_refl. auto.
Qed.

Lemma put_alone_room s item d :
  parked s t = None -> _closed (buf s) = false ->
  len (buf s) < capacity (buf s) ->
  fst (put_alone t item (Some d) s) = Return true /\
  buf (snd (put_alone t item (Some d) s)) =
    set_stats (set_buffer (set_op_counter (buf s) (op_counter (buf s) + 1))
                          (_buffer (buf s) ++ [item]))
              (incr_puts (stats (buf s))) /\
  parked (snd (put_alone t item (Some d) s)) t = None.
Proof.
  intros Hp Hc Hroom. unfold put_alone. cbn [sys_step]. rewrite Hp.
  rewrite (put_with_room _ item (Some d) Hc Hroom). cbn.
  rewrite Nat.eqb_refl. auto.
Qed.

Lemma put_alone_full s item d :
  parked s t = None -> _closed (buf s) = false ->
  capacity (buf s) <= len (buf s) ->
  fst (put_alone t item (Some d) s) = Return false /\
  buf (snd (put_alone t item (Some d) s)) =
    set_stats (set_op_counter (buf s) (op_counter (buf s) + 1))
              (incr_waits_for_space (stats (buf s))) /\
  parked (snd (put_alone t item (Some d) s)) t = None.
Proof.
  intros Hp Hc Hfull. unfold put_alone. cbn [sys_step]. rewrite Hp.
  rewrite (put_on_full _ item (Some d) Hc Hfull).
  cbn [ended after signals park_put settle parked buf].
  rewrite Nat.eqb_refl. cbn [may_resume has_timeout].
  unfold put_wake. cbn [_closed set_stats set_op_counter]. rewrite Hc.
  cbn. rewrite Nat.eqb_refl. auto.
Qed.

(** The three ends of a timed [get] made alone. *)
Lemma get_alone_item s d item rest :
  parked s t = None -> _buffer (buf s) = item :: rest ->
  fst (get_alone t (Some d) s) = Return (Some item) /\
  buf (snd (get_alone t (Some d) s)) =
    set_stats (set_buffer (set_op_counter (buf s) (op_counter (buf s) + 1))
                          rest)
              (incr_gets (stats (buf s))) /\
  parked (snd (get_alone t (Some d) s)) t = None.
Proof.
  intros Hp Hq. unfold get_alone. cbn [sys_step]. rewrite Hp.
  unfold get, get_loop. cbn [_buffer set_op_counter]. rewrite Hq. cbn.
  rewrite Nat.eqb_refl. auto.
Qed.

Lemma get_alone_empty s d :
  parked s t = None -> _buffer (buf s) = [] ->
  fst (get_alone t (Some d) s) =
    (if _closed (buf s)
     then Raise (StopIteration "Buffer closed and empty")
     else Return None) /\
  _buffer (buf (snd (get_alone t (Some d) s))) = [] /\
  _closed (buf (snd (get_alone t (Some d) s))) = _closed (buf s) /\
  parked (snd (get_alone t (Some d) s)) t = None.
Proof.
  intros Hp Hq. unfold get_alone. cbn [sys_step]. rewrite Hp.
  unfold get, get_loop. cbn [_buffer _closed set_op_counter]. rewrite Hq.
  destruct (_closed (buf s)) eqn:Hc; cbn; rewrite Nat.eqb_refl; cbn.
  - rewrite Hq, Hc. auto.
  - rewrite Hq, Hc, Nat.eqb_refl. auto.
Qed.

Lemma ev_get_alone_eq w :
  ev_get_alone t w =
  (match fst (get_alone t (Some (5 # 100)) (env w)) with
   | Return (Some item) => got item
   | Return None => get_timed_out
   | Raise _ => get_closed
   | Wait _ _ => get_timed_out
   end,
   with_env w (snd (get_alone t (Some (5 # 100)) (env w)))).
Proof.
  unfold ev_get_alone. destruct (get_alone t (Some (5 # 100)) (env w)).
  reflexivity.
Qed.

Lemma ev_put_alone_eq item w :
  ev_put_alone t item w =
  (match fst (put_alone t item (Some (2 # 10)) (env w)) with
   | Return true => put_done
   | Return false => put_timed_out
   | Raise _ => put_closed
   | Wait _ _ => put_timed_out
   end,
   with_env w (snd (put_alone t item (Some (2 # 10)) (env w)))).
Proof.
  unfold ev_put_alone. destruct (put_alone t item (Some (2 # 10)) (env w)).
  reflexivity.
Qed.

Lemma total_kwh_cons (item : request) (items : list request) :
  total_kwh (item :: items) = kwh item + total_kwh items.
Proof. reflexivity. Qed.

(** The loop of the consumer, alone: it takes the first [n] items of the
    queue, or all of them if there are fewer, and touches nothing else. *)
Lemma consume_alone (n : nat) : forall (processed_kwh requests_processed : Z) w,
  parked (env w) t = None ->
  let q := _buffer (buf (env w)) in
  let r := consume (ev_get_alone t) n processed_kwh requests_processed w in
  fst r = (processed_kwh + total_kwh (firstn n q),
           requests_processed + Z.of_nat (List.length (firstn n q))) /\
  _buffer (buf (env (snd r))) = skipn n q /\
  _closed (buf (env (snd r))) = _closed (buf (env w)) /\
  parked (env (snd r)) t = None /\
  clock (snd r) = clock w /\ logger (snd r) = logger w /\
  running (snd r) = running w /\ warnings (snd r) = warnings w /\
  sleeps (snd r) = sleeps w.
Proof.
  induction n as [|n IH]; intros k c w Hp q r; subst q r.
  - cbn. rewrite !Z.add_0_r. auto 10.
  - cbn [consume]. unfold bind. rewrite ev_get_alone_eq.
    destruct (_buffer (buf (env w))) as [|item rest] eqn:Hq.
    + destruct (get_alone_empty (env w) (5 # 100) Hp Hq)
        as (Hres & Hq' & Hc' & Hp').
      rewrite Hres.
      destruct (_closed (buf (env w))); cbn; rewrite ?Z.add_0_r; auto 10.
    + destruct (get_alone_item (env w) (5 # 100) item rest Hp Hq)
        as (Hres & Hb' & Hp').
      rewrite Hres.
      match goal with
      | |- context [consume _ n ?k1 ?c1 ?w1] =>
          destruct (IH k1 c1 w1) as (Hr & Hrest & Hcl & Hpk & Hw)
      end; [exact Hp'|].
      cbn [env with_env] in Hr, Hrest, Hcl.
      rewrite Hb' in Hr, Hrest, Hcl. cbn [_buffer _closed set_stats set_buffer
        set_op_counter] in Hr, Hrest, Hcl.
      cbn [firstn skipn]. rewrite total_kwh_cons. cbn [List.length].
      rewrite Hr. split; [f_equal; lia|].
      split; [exact Hrest|]. split; [exact Hcl|].
      split; [exact Hpk|]. exact Hw.
Qed.

Lemma log_metric_eq {E : Type} (self : Base.Subsystem) (p : Metrics.payload)
      (w : World E) :
  let c := clock w in
  Base.log_metric self p w =
  (tt, mkWorld (mkClock (wall c) (S (wall_reads c)) (mono c)
                        (S (mono_reads c)))
               (Database.log (logger w)
                  (Metrics.mkEvent (Database.run_id (logger w))
                     (Base.name self) (wall c (wall_reads c))
                     (mono c (mono_reads c)) (Metrics.MetricEvent p)))
               (running w) (warnings w) (sleeps w) (env w)).
Proof. destruct w as [[wl wr mn mr] lg rn ws sl en]. reflexivity. Qed.

(** A tick of the consumer, alone, as one equation. *)
Lemma energy_tick_alone
      (active_scenario : option string) (r : Q) (self : EnergySubsystem) w :
  parked (env w) t = None ->
  let q := _buffer (buf (env w)) in
  let taken := firstn (max_items active_scenario) q in
  let ev_load := (inject_Z (total_kwh taken) / 1000)%Q in
  let after := energy_tick (ev_get_alone t) active_scenario r self w in
  exists e w',
  after = (mkEnergy (energy_base self) (base_load_mw self) ev_load,
           w') /\
  _buffer (buf (env w')) = skipn (max_items active_scenario) q /\
  sleeps w' = sleeps w ++ [processing_delay active_scenario; r] /\
  logger w' = Database.log (logger w) e /\
  Metrics.subsystem e = Base.name (energy_base self) /\
  Metrics.payload_of e =
    Some [ ("total_load_mw"%string,
            Metrics.VFloat (base_load_mw self + ev_load));
           ("ev_load_mw"%string, Metrics.VFloat ev_load);
           ("requests_processed"%string,
            Metrics.VInt (Z.of_nat (List.length taken))) ].
Proof.
  intros Hp q taken ev_load after. subst q taken ev_load after.
  unfold energy_tick. unfold bind at 1. unfold sleep at 1. unfold bind at 1.
  match goal with
  | |- context [consume _ _ 0 0 ?w1] =>
      destruct (consume_alone (max_items active_scenario) 0 0 w1 Hp)
        as (Hr & Hrest & _ & _ & Hclock & Hlog & Hrun & Hwarn & Hsl);
      destruct (consume (ev_get_alone t) (max_items active_scenario) 0 0 w1)
        as [done w2]
  end.
  cbn [fst snd env clock logger running warnings sleeps] in *.
  subst done. cbn [fst snd]. rewrite !Z.add_0_l.
  unfold bind at 1. unfold sleep at 1. unfold bind at 1.
  rewrite log_metric_eq.
  cbn [fst snd env clock logger running warnings sleeps ret].
  eexists. eexists. split; [reflexivity|].
  cbn [env sleeps logger].
  split; [exact Hrest|].
  split; [rewrite Hsl, <- app_assoc; reflexivity|].
  split; [rewrite Hlog; reflexivity|].
  split; reflexivity.
Qed.

(** X14.  A tick of Energy alone with the buffer, closed or not: it takes
    the oldest items of the queue, three of them or one during a power
    outage, or all if there are fewer, and leaves the others in order; the
    load it stores and the count it logs are those of the items taken. *)
Theorem energy_tick_takes_the_oldest
        (active_scenario : option string) (r : Q) (self : EnergySubsystem) w :
  parked (env w) t = None ->
  let q := _buffer (buf (env w)) in
  let taken := firstn (max_items active_scenario) q in
  let ev_load := (inject_Z (total_kwh taken) / 1000)%Q in
  let after := energy_tick (ev_get_alone t) active_scenario r self w in
  q = taken ++ _buffer (buf (env (snd after))) /\
  (List.length taken <= 3)%nat /\
  (power_outage active_scenario = true -> (List.length taken <= 1)%nat) /\
  ev_load_mw (fst after) = ev_load /\
  sleeps (snd after) = sleeps w ++ [processing_delay active_scenario; r] /\
  exists e,
    logger (snd after) = Database.log (logger w) e /\
    Metrics.subsystem e = Base.name (energy_base self) /\
    Metrics.payload_of e =
      Some [ ("total_load_mw"%string,
              Metrics.VFloat (base_load_mw self + ev_load));
             ("ev_load_mw"%string, Metrics.VFloat ev_load);
             ("requests_processed"%string,
              Metrics.VInt (Z.of_nat (List.length taken))) ].
Proof.
  intros Hp q taken ev_load after.
  destruct (energy_tick_alone active_scenario r self w Hp)
    as (e & w' & Hafter & Hrest & Hsl & Hlog & Hsub & Hpay).
  fold q taken ev_load after in Hafter, Hrest, Hsl, Hlog, Hsub, Hpay.
  rewrite Hafter. cbn [fst snd ev_load_mw].
  split; [rewrite Hrest; symmetry; apply firstn_skipn|].
  split.
  { subst taken. rewrite length_firstn. unfold max_items.
    destruct (power_outage active_scenario); lia. }
  split.
  { intros Ho. subst taken. rewrite length_firstn. unfold max_items.
    rewrite Ho. lia. }
  split; [reflexivity|].
  split; [exact Hsl|].
  exists e. auto.
Qed.

Lemma produce_S (self : Base.Subsystem) (draw : nat -> Z * Z) (k n : nat) w :
  let w1 := snd (time w) in
  let request :=
    request_of self draw (fun _ => wall (clock w) (wall_reads (clock w))) k in
  let answer := ev_put_alone t request w1 in
  produce (ev_put_alone t) self draw k (S n) w =
  produce (ev_put_alone t) self draw (S k) n
    (match fst answer with
     | put_timed_out =>
         snd (Base.log_metric self
                [ ("event"%string, Metrics.VStr "ev_req_dropped");
                  ("reason"%string, Metrics.VStr "timeout_full") ]
                (snd answer))
     | _ => snd answer
     end).
Proof.
  cbv zeta. cbn [produce]. unfold bind at 1.
  destruct w as [[wl wr mn mr] lg rn ws sl en].
  cbn [time clock wall wall_reads mono mono_reads logger running warnings
       sleeps env fst snd].
  unfold bind at 1. unfold request_of.
  destruct (ev_put_alone t _ _) as [[ | | ] w2]; cbn [fst snd];
    unfold bind at 1; cbn [ret]; reflexivity.
Qed.

(** A tick of the producer on a closed buffer: every [put] raises, the
    handler passes, and nothing is enqueued or logged. *)
Lemma produce_alone_closed (self : Base.Subsystem) (draw : nat -> Z * Z)
      (n : nat) : forall (k : nat) w,
  parked (env w) t = None -> _closed (buf (env w)) = true ->
  let r := produce (ev_put_alone t) self draw k n w in
  logger (snd r) = logger w /\
  _buffer (buf (env (snd r))) = _buffer (buf (env w)) /\
  stats (buf (env (snd r))) = stats (buf (env w)) /\
  _closed (buf (env (snd r))) = true /\
  parked (env (snd r)) t = None /\
  sleeps (snd r) = sleeps w.
Proof.
  induction n as [|n IH]; intros k w Hp Hc r; subst r; [cbn; auto 10|].
  rewrite produce_S. cbv zeta. rewrite ev_put_alone_eq. cbn [fst snd].
  match goal with
  | |- context [put_alone t ?item (Some ?d) ?s0] =>
      destruct (put_alone_closed s0 item d) as (Hres & Hb & Hp');
      [destruct w as [[wl wr mn mr] lg rn ws sl en]; exact Hp
      |destruct w as [[wl wr mn mr] lg rn ws sl en]; exact Hc|]
  end.
  rewrite Hres.
  match goal with
  | |- context [produce _ _ _ (S k) n ?w1] =>
      destruct (IH (S k) w1) as (Hlog & Hq & Hst & Hcl & Hpk & Hsl)
  end.
  - exact Hp'.
  - cbn [env with_env]. rewrite Hb.
    destruct w as [[wl wr mn mr] lg rn ws sl en]. exact Hc.
  - cbn [env with_env logger sleeps] in *. rewrite Hb in Hq, Hst.
    destruct w as [[wl wr mn mr] lg rn ws sl en].
    cbn in *. auto 10.
Qed.

(** A tick of the producer on a full buffer with nobody consuming: every
    [put] times out and is reported as dropped. *)
Lemma produce_alone_full (self : Base.Subsystem) (draw : nat -> Z * Z)
      (n : nat) : forall (k : nat) w,
  parked (env w) t = None -> _closed (buf (env w)) = false ->
  capacity (buf (env w)) <= len (buf (env w)) ->
  let r := produce (ev_put_alone t) self draw k n w in
  (exists evs,
     List.length evs = n /\
     Forall (fun e => is_event "ev_req_dropped" e = true) evs /\
     logger (snd r) = fold_left Database.log evs (logger w)) /\
  _buffer (buf (env (snd r))) = _buffer (buf (env w)) /\
  _closed (buf (env (snd r))) = false /\
  capacity (buf (env (snd r))) = capacity (buf (env w)) /\
  puts (stats (buf (env (snd r)))) = puts (stats (buf (env w))) /\
  waits_for_space (stats (buf (env (snd r)))) =
    waits_for_space (stats (buf (env w))) + Z.of_nat n /\
  parked (env (snd r)) t = None.
Proof.
  induction n as [|n IH]; intros k w Hp Hc Hfull r; subst r.
  - cbn. rewrite Z.add_0_r. split; [exists []; auto|]. auto 10.
  - rewrite produce_S. cbv zeta. rewrite ev_put_alone_eq. cbn [fst snd].
    destruct w as [[wl wr mn mr] lg rn ws sl s]. cbn [env] in Hp, Hc, Hfull.
    cbn [time clock wall wall_reads mono mono_reads logger running warnings
         sleeps env fst snd].
    match goal with
    | |- context [put_alone t ?item (Some ?d) s] =>
        destruct (put_alone_full s item d Hp Hc Hfull) as (Hres & Hb & Hp')
    end.
    rewrite Hres. rewrite log_metric_eq.
    cbn [snd with_env clock wall wall_reads mono mono_reads logger running
         warnings sleeps env].
    match goal with
    | |- context [produce _ _ _ (S k) n ?w1] =>
        destruct (IH (S k) w1)
          as ((evs & Hlen & Hall & Hlog) & Hq & Hcl & Hcap & Hpu & Hwa & Hpk)
    end.
    + exact Hp'.
    + cbn [env]. rewrite Hb. exact Hc.
    + cbn [env]. rewrite Hb. exact Hfull.
    + cbn [env logger] in *. rewrite Hb in Hq, Hcap, Hpu, Hwa.
      cbn [_buffer capacity stats set_stats set_op_counter puts
           waits_for_space incr_waits_for_space] in Hq, Hcap, Hpu, Hwa.
      split.
      * match type of Hlog with
        | _ = fold_left _ _ (Database.log _ ?e) => exists (e :: evs)
        end.
        split; [simpl; rewrite Hlen; reflexivity|].
        split; [constructor; [reflexivity | exact Hall]|].
        exact Hlog.
      * repeat split; auto. rewrite Hwa. lia.
Qed.

(** A tick of the producer on an open buffer with nobody consuming: the
    first requests fill the free places, in order; every further one times
    out and is reported as dropped. *)
Lemma produce_alone_open (self : Base.Subsystem) (draw : nat -> Z * Z)
      (n : nat) : forall (k : nat) w,
  parked (env w) t = None -> _closed (buf (env w)) = false ->
  let c := clock w in
  let free := Z.to_nat (capacity (buf (env w)) - len (buf (env w))) in
  let accepted := Nat.min n free in
  let r := produce (ev_put_alone t) self draw k n w in
  _buffer (buf (env (snd r))) =
    _buffer (buf (env w)) ++
    map (request_of self draw (fun j => wall c (wall_reads c + (j - k))))
        (seq k accepted) /\
  (exists evs,
     List.length evs = (n - accepted)%nat /\
     Forall (fun e => is_event "ev_req_dropped" e = true) evs /\
     logger (snd r) = fold_left Database.log evs (logger w)) /\
  _closed (buf (env (snd r))) = false /\
  puts (stats (buf (env (snd r)))) =
    puts (stats (buf (env w))) + Z.of_nat accepted /\
  waits_for_space (stats (buf (env (snd r)))) =
    waits_for_space (stats (buf (env w))) + Z.of_nat (n - accepted) /\
  parked (env (snd r)) t = None.
Proof.
  induction n as [|n IH]; intros k w Hp Hc c free accepted r;
    subst c free accepted r.
  - cbn. rewrite app_nil_r, !Z.add_0_r.
    split; [reflexivity|]. split; [exists []; auto|]. auto.
  - destruct (Z_lt_le_dec (len (buf (env w))) (capacity (buf (env w))))
      as [Hroom | Hfull].
    + (* a free place: the request is enqueued *)
      rewrite produce_S. cbv zeta. rewrite ev_put_alone_eq. cbn [fst snd].
      destruct w as [[wl wr mn mr] lg rn ws sl s].
      cbn [env clock wall wall_reads] in *.
      cbn [time clock wall wall_reads mono mono_reads logger running warnings
           sleeps env fst snd].
      match goal with
      | |- context [put_alone t ?item (Some ?d) s] =>
          destruct (put_alone_room s item d Hp Hc Hroom) as (Hres & Hb & Hp');
          set (req := item) in *
      end.
      rewrite Hres.
      match goal with
      | |- context [produce _ _ _ (S k) n ?w1] =>
          destruct (IH (S k) w1)
            as (Hq & (evs & Hlen & Hall & Hlog) & Hcl & Hpu & Hwa & Hpk)
      end; [exact Hp' | cbn [env with_env]; rewrite Hb; exact Hc |].
      cbn [env with_env logger clock wall wall_reads] in Hq, Hlen, Hlog, Hpu,
        Hwa.
      rewrite Hb in Hq, Hlen, Hpu, Hwa.
      cbn [_buffer capacity stats set_stats set_buffer set_op_counter puts
           waits_for_space incr_puts] in Hq, Hlen, Hpu, Hwa.
      assert (Hlen1 : len (set_stats
                             (set_buffer
                                (set_op_counter (buf s)
                                                (op_counter (buf s) + 1))
                                (_buffer (buf s) ++ [req]))
                             (incr_puts (stats (buf s)))) = len (buf s) + 1).
      { unfold len. cbn [_buffer set_stats set_buffer].
        rewrite length_app. simpl. lia. }
      rewrite Hlen1 in Hq, Hlen, Hpu, Hwa.
      assert (Hmin : Nat.min (S n)
                       (Z.to_nat (capacity (buf s) - len (buf s))) =
                     S (Nat.min n
                          (Z.to_nat (capacity (buf s) - (len (buf s) + 1)))))
        by lia.
      rewrite Hmin. cbn [seq map].
      split.
      { rewrite Hq, <- app_assoc. cbn [app]. f_equal. f_equal.
        - unfold req, request_of. rewrite Nat.sub_diag, Nat.add_0_r.
          reflexivity.
        - apply map_ext_in. intros j Hj. apply in_seq in Hj.
          unfold request_of. f_equal. f_equal. lia. }
      split.
      { exists evs. split; [rewrite Hlen; lia|].
        split; [exact Hall | exact Hlog]. }
      split; [exact Hcl|].
      split; [rewrite Hpu; lia|].
      split; [rewrite Hwa; f_equal; f_equal; lia | exact Hpk].
    + (* no free place: this request and all further ones are dropped *)
      destruct (produce_alone_full self draw (S n) k w Hp Hc Hfull)
        as (Hevs & Hq & Hcl & _ & Hpu & Hwa & Hpk).
      assert (Hmin : Nat.min (S n)
                       (Z.to_nat (capacity (buf (env w)) - len (buf (env w))))
                     = 0%nat) by lia.
      rewrite Hmin. cbn [seq map]. rewrite app_nil_r, Z.add_0_r, Nat.sub_0_r.
      auto 10.
Qed.

(** A tick of Traffic around its loop: the sleep before it and the
    status metric after it. *)
Lemma traffic_tick_eq
      (change : Z) (r : Q) (num_requests : nat) (draw : nat -> Z * Z)
      (self : TrafficSubsystem) w :
  let cars := Z.max 0 (Z.min 500 (cars_on_road self + change)) in
  let w1 := mkWorld (clock w) (logger w) (running w) (warnings w)
                    (sleeps w ++ [r]) (env w) in
  let w2 := snd (produce (ev_put_alone t) (traffic_base self) draw 0
                         num_requests w1) in
  exists status,
    traffic_tick (ev_put_alone t) change r num_requests draw self w =
      (mkTraffic (traffic_base self) cars,
       mkWorld (mkClock (wall (clock w2)) (S (wall_reads (clock w2)))
                        (mono (clock w2)) (S (mono_reads (clock w2))))
               (Database.log (logger w2) status) (running w2)
               (warnings w2) (sleeps w2) (env w2)) /\
    Metrics.subsystem status = Base.name (traffic_base self) /\
    is_event "ev_req_dropped" status = false /\
    Metrics.payload_of status =
      Some [ ("cars"%string, Metrics.VInt cars);
             ("congestion"%string, Metrics.VFloat (inject_Z cars / 500));
             ("generated_requests"%string,
              Metrics.VInt (Z.of_nat num_requests)) ].
Proof.
  cbv zeta. unfold traffic_tick.
  unfold bind at 1. unfold sleep at 1. unfold bind at 1.
  destruct (produce _ _ _ 0%nat num_requests _) as [[] w2] eqn:Hprod.
  unfold bind at 1. rewrite log_metric_eq. cbn [ret snd].
  eexists. split; [reflexivity|]. split; [reflexivity|].
  split; reflexivity.
Qed.

(** X15.  A tick of Traffic alone with an open buffer: the number of cars
    stays between 0 and 500; the first requests fill the free places of the
    buffer, behind what was queued and in the order they were built, with
    the tick counter and the draws in their names; every request that
    finds the buffer full times out and is reported as [ev_req_dropped];
    the status metric, logged last, tells how many requests were built. *)
Theorem traffic_tick_fills_the_buffer
        (change : Z) (r : Q) (num_requests : nat) (draw : nat -> Z * Z)
        (self : TrafficSubsystem) w :
  parked (env w) t = None ->
  _closed (buf (env w)) = false ->
  let c := clock w in
  let b := buf (env w) in
  let accepted := Nat.min num_requests (Z.to_nat (capacity b - len b)) in
  let after := traffic_tick (ev_put_alone t) change r num_requests draw self w in
  0 <= cars_on_road (fst after) <= 500 /\
  _buffer (buf (env (snd after))) =
    _buffer b ++
    map (request_of (traffic_base self) draw
           (fun j => wall c (wall_reads c + j)))
        (seq 0 accepted) /\
  puts (stats (buf (env (snd after)))) = puts (stats b) + Z.of_nat accepted /\
  exists drops status,
    List.length drops = (num_requests - accepted)%nat /\
    Forall (fun e => is_event "ev_req_dropped" e = true) drops /\
    logger (snd after) =
      Database.log (fold_left Database.log drops (logger w)) status /\
    Metrics.payload_of status =
      Some [ ("cars"%string, Metrics.VInt (cars_on_road (fst after)));
             ("congestion"%string,
              Metrics.VFloat (inject_Z (cars_on_road (fst after)) / 500));
             ("generated_requests"%string,
              Metrics.VInt (Z.of_nat num_requests)) ].
Proof.
  intros Hp Hc c b accepted after.
  destruct (traffic_tick_eq change r num_requests draw self w)
    as (status & Hafter & _ & _ & Hstatus).
  fold after in Hafter.
  match type of Hafter with
  | context [produce _ _ _ 0%nat num_requests ?w0] => set (w1 := w0) in *
  end.
  destruct (produce_alone_open (traffic_base self) draw num_requests 0 w1
                               Hp Hc)
    as (Hq & (drops & Hlen & Hall & Hlog) & _ & Hpu & _ & _).
  cbn [env clock logger w1] in Hq, Hlen, Hlog, Hpu.
  rewrite Hafter. cbn [fst snd cars_on_road env logger].
  split; [lia|].
  split.
  { rewrite Hq. f_equal. apply map_ext. intros j. unfold request_of.
    rewrite Nat.sub_0_r. reflexivity. }
  split; [exact Hpu|].
  exists drops, status.
  split; [exact Hlen|]. split; [exact Hall|].
  split; [rewrite Hlog; reflexivity | exact Hstatus].
Qed.

(** X16.  A tick of Traffic on a closed buffer: every [put] raises
    [ValueError], which the tick swallows; nothing is enqueued, no request
    is reported as dropped, and the tick still ends with its status
    metric. *)
Theorem traffic_tick_on_closed_buffer
        (change : Z) (r : Q) (num_requests : nat) (draw : nat -> Z * Z)
        (self : TrafficSubsystem) w :
  parked (env w) t = None ->
  _closed (buf (env w)) = true ->
  let after := traffic_tick (ev_put_alone t) change r num_requests draw self w in
  _buffer (buf (env (snd after))) = _buffer (buf (env w)) /\
  stats (buf (env (snd after))) = stats (buf (env w)) /\
  exists status,
    logger (snd after) = Database.log (logger w) status /\
    Metrics.subsystem status = Base.name (traffic_base self) /\
    is_event "ev_req_dropped" status = false.
Proof.
  intros Hp Hc after.
  destruct (traffic_tick_eq change r num_requests draw self w)
    as (status & Hafter & Hsub & Hev & _).
  fold after in Hafter.
  match type of Hafter with
  | context [produce _ _ _ 0%nat num_requests ?w0] => set (w1 := w0) in *
  end.
  destruct (produce_alone_closed (traffic_base self) draw num_requests 0 w1
                                 Hp Hc)
    as (Hlog & Hq & Hst & _ & _ & _).
  cbn [env logger w1] in Hlog, Hq, Hst.
  rewrite Hafter. cbn [snd env logger].
  split; [exact Hq|]. split; [exact Hst|].
  exists status. split; [rewrite Hlog; reflexivity|].
  split; [exact Hsub | exact Hev].
Qed.

(** A thread that is not parked is not parked by the calls of another. *)
Lemma put_alone_keeps_free s item d (u : tid) :
  parked s t = None -> parked s u = None ->
  parked (snd (put_alone t item (Some d) s)) u = None.
Proof.
  intros Hp Hu.
  destruct (_closed (buf s)) eqn:Hc;
    [|destruct (Z_lt_le_dec (len (buf s)) (capacity (buf s)))
        as [Hroom | Hfull]];
    unfold put_alone; cbn [sys_step]; rewrite Hp.
  - rewrite (put_when_closed _ item (Some d) Hc). cbn.
    rewrite Hu. destruct (Nat.eqb u t); reflexivity.
  - rewrite (put_with_room _ item (Some d) Hc Hroom). cbn.
    rewrite Hu. destruct (Nat.eqb u t); reflexivity.
  - rewrite (put_on_full _ item (Some d) Hc Hfull).
    cbn [ended after signals park_put settle parked buf].
    rewrite Nat.eqb_refl. cbn [may_resume has_timeout].
    unfold put_wake. cbn [_closed set_stats set_op_counter]. rewrite Hc.
    cbn. rewrite Hu. destruct (Nat.eqb u t); reflexivity.
Qed.

Lemma produce_keeps_free (self : Base.Subsystem) (draw : nat -> Z * Z)
      (u : tid) (n : nat) : forall (k : nat) w,
  parked (env w) t = None -> parked (env w) u = None ->
  parked (env (snd (produce (ev_put_alone t) self draw k n w))) t = None /\
  parked (env (snd (produce (ev_put_alone t) self draw k n w))) u = None.
Proof.
  induction n as [|n IH]; intros k w Hp Hu; [cbn; auto|].
  rewrite produce_S. cbv zeta. rewrite ev_put_alone_eq. cbn [fst snd].
  destruct w as [[wl wr mn mr] lg rn ws sl s]. cbn [env] in Hp, Hu.
  cbn [time clock wall wall_reads mono mono_reads logger running warnings
       sleeps env fst snd].
  match goal with
  | |- context [put_alone t ?item (Some ?d) s] =>
      pose proof (put_alone_keeps_free s item d t Hp Hp) as Hp';
      pose proof (put_alone_keeps_free s item d u Hp Hu) as Hu';
      destruct (fst (put_alone t item (Some d) s)) as [[|]| |]
  end; try (apply IH; assumption).
Qed.

End AloneFacts.

Lemma firstn_seq (n : nat) : forall (start len : nat),
  firstn n (seq start len) = seq start (Nat.min n len).
Proof.
  induction n as [|n IH]; intros start [|len]; cbn; try reflexivity.
  f_equal. apply IH.
Qed.

Section Handoff.

Import Sim Subsystems Alone Readings.

(** X17.  The handoff.  On an empty open buffer, a tick of Traffic by one
    thread followed by a tick of Energy by another, nobody else moving:
    Energy processes the requests that Traffic built first, in the order
    they were built, as many as Traffic built, as the buffer has places
    and as Energy takes in a tick, whichever is least. *)
Theorem traffic_then_energy
        (producer consumer : tid)
        (change : Z) (r r' : Q) (num_requests : nat) (draw : nat -> Z * Z)
        (active_scenario : option string)
        (traffic : TrafficSubsystem) (energy : EnergySubsystem)
        (w : World (System request)) :
  parked (env w) producer = None ->
  parked (env w) consumer = None ->
  _closed (buf (env w)) = false ->
  _buffer (buf (env w)) = [] ->
  let c := clock w in
  let built := map (request_of (traffic_base traffic) draw
                      (fun j => wall c (wall_reads c + j)))
                   (seq 0 num_requests) in
  let queued := firstn (Z.to_nat (capacity (buf (env w)))) built in
  let taken := firstn (max_items active_scenario) queued in
  let w1 := snd (traffic_tick (ev_put_alone producer) change r num_requests
                              draw traffic w) in
  let after := energy_tick (ev_get_alone consumer) active_scenario r' energy
                           w1 in
  _buffer (buf (env w1)) = queued /\
  queued = taken ++ _buffer (buf (env (snd after))) /\
  ev_load_mw (fst after) = (inject_Z (total_kwh taken) / 1000)%Q.
Proof.
  intros Hp Hc Hopen Hempty c built queued taken w1 after.
  destruct (traffic_tick_eq producer change r num_requests draw traffic w)
    as (status & Hafter & _).
  match type of Hafter with
  | context [produce _ _ _ 0%nat num_requests ?w0] => set (w0' := w0) in *
  end.
  destruct (produce_alone_open producer (traffic_base traffic) draw
              num_requests 0 w0' Hp Hopen) as (Hq & _).
  destruct (produce_keeps_free producer (traffic_base traffic) draw consumer
              num_requests 0 w0' Hp Hc) as (_ & Hfree).
  assert (Henv : env w1 =
                 env (snd (produce (ev_put_alone producer)
                             (traffic_base traffic) draw 0 num_requests w0'))).
  { subst w1. rewrite Hafter. reflexivity. }
  assert (Hqueue : _buffer (buf (env w1)) = queued).
  { rewrite Henv, Hq. cbn [env clock w0']. rewrite Hempty. cbn [app].
    subst queued built. unfold len. rewrite Hempty. cbn [List.length].
    rewrite Z.sub_0_r, firstn_map, firstn_seq, Nat.min_comm.
    apply map_ext. intros j. unfold request_of. rewrite Nat.sub_0_r.
    reflexivity. }
  assert (Hfree' : parked (env w1) consumer = None).
  { rewrite Henv. exact Hfree. }
  destruct (energy_tick_alone consumer active_scenario r' energy w1 Hfree')
    as (e & w' & Hen & Hrest & _).
  fold after in Hen. rewrite Hqueue in Hen, Hrest.
  split; [exact Hqueue|].
  rewrite Hen. cbn [fst snd ev_load_mw].
  split; [rewrite Hrest; symmetry; apply firstn_skipn | reflexivity].
Qed.

End Handoff.

Section WaterFacts.

Import Sim Subsystems Readings.

Context {E : Type}.

Lemma py_clip_bounds (x : Q) : (0 <= py_max 0 (py_min 100 x) <= 100)%Q.
Proof.
  unfold py_max, py_min.
  destruct (Qgtb 100 x) eqn:H100.
  - apply Qgtb_lt in H100.
    destruct (Qgtb x 0) eqn:H0.
    + apply Qgtb_lt in H0. split; apply Qlt_le_weak; assumption.
    + split; [apply Qle_refl | discriminate].
  - destruct (Qgtb 100 0) eqn:H0; [|discriminate H0].
    split; [discriminate | apply Qle_refl].
Qed.

Lemma capacity_per_tick_eq (active_scenario : option string) :
  capacity_per_tick active_scenario =
  if power_outage active_scenario then 3 else 15.
Proof.
  unfold capacity_per_tick, power_factor.
  destruct (power_outage active_scenario); reflexivity.
Qed.

(** A tick of Water as one equation. *)
Lemma water_tick_eq (active_scenario : option string) (new_requests : Z)
      (r : Q) (self : WaterSubsystem) (w : World E) :
  let factor := power_factor active_scenario in
  let arrived := request_queue_depth self + new_requests in
  let processed := Z.min arrived (capacity_per_tick active_scenario) in
  let depth := arrived - processed in
  let level :=
    py_max 0 (py_min 100
      (reservoir_level self +
       (inject_Z processed * (1 # 10) - r * (1 # 2)))%Q) in
  let naps :=
    (if processed >? 0
     then [((inject_Z processed * (5 # 1000)) / factor)%Q] else []) ++
    (if depth >? 20 then [5 # 100] else []) in
  let c := clock w in
  water_tick active_scenario new_requests r self w =
  (mkWater (water_base self) (pumping_capacity self) level depth,
   mkWorld (mkClock (wall c) (S (wall_reads c)) (mono c) (S (mono_reads c)))
           (Database.log (logger w)
              (Metrics.mkEvent (Database.run_id (logger w))
                 (Base.name (water_base self)) (wall c (wall_reads c))
                 (mono c (mono_reads c))
                 (Metrics.MetricEvent
                    [ ("reservoir_level"%string, Metrics.VFloat level);
                      ("pending_requests"%string, Metrics.VInt depth);
                      ("pumping_capacity_util"%string,
                       Metrics.VFloat (inject_Z processed / 10));
                      ("power_factor"%string, Metrics.VFloat factor) ])))
           (running w) (warnings w) (sleeps w ++ naps) (env w)).
Proof.
  cbv zeta. unfold water_tick.
  destruct w as [[wl wr mn mr] lg rn ws sl en].
  destruct (Z.min _ _ >? 0); destruct (_ - _ >? 20);
    unfold bind at 1; [unfold sleep at 1 | unfold sleep at 1
                      | unfold ret at 1 | unfold ret at 1];
    unfold bind at 1; [unfold sleep at 1 | unfold ret at 1
                      | unfold sleep at 1 | unfold ret at 1];
    unfold bind at 1; rewrite log_metric_eq;
    cbn [ret fst snd clock logger running warnings sleeps env wall wall_reads
         mono mono_reads app];
    rewrite <- ?app_assoc, ?app_nil_r; reflexivity.
Qed.

(** X18.  A tick of Water, [new_requests] being a value of
    [random.randint(5, 15)] and the backlog not negative before: the
    backlog stays non-negative, at most 15 requests are processed, 3
    during a power outage; without an outage the backlog never grows and
    an empty one stays empty, during an outage it grows by 2 at least; the
    reservoir level stays between 0 and 100; the tick logs one metric event
    with the new backlog and level, and sleeps for the backlog only when
    more than 20 requests are left. *)
Theorem water_tick_backlog (active_scenario : option string)
        (new_requests : Z) (r : Q) (self : WaterSubsystem) (w : World E) :
  5 <= new_requests <= 15 ->
  0 <= request_queue_depth self ->
  let after := water_tick active_scenario new_requests r self w in
  let before := request_queue_depth self in
  let depth := request_queue_depth (fst after) in
  let processed := before + new_requests - depth in
  0 <= depth /\
  0 < processed <= capacity_per_tick active_scenario /\
  (power_outage active_scenario = false ->
     processed <= 15 /\ depth = Z.max 0 (before + new_requests - 15) /\
     depth <= before) /\
  (power_outage active_scenario = true ->
     processed = 3 /\ before + 2 <= depth) /\
  (0 <= reservoir_level (fst after) <= 100)%Q /\
  (depth <= 20 -> List.length (sleeps (snd after)) =
                  S (List.length (sleeps w))) /\
  (20 < depth -> exists d, sleeps (snd after) = sleeps w ++ [d; 5 # 100]) /\
  exists e,
    logger (snd after) = Database.log (logger w) e /\
    Metrics.subsystem e = Base.name (water_base self) /\
    Metrics.payload_of e =
      Some [ ("reservoir_level"%string,
              Metrics.VFloat (reservoir_level (fst after)));
             ("pending_requests"%string, Metrics.VInt depth);
             ("pumping_capacity_util"%string,
              Metrics.VFloat (inject_Z processed / 10));
             ("power_factor"%string,
              Metrics.VFloat (power_factor active_scenario)) ].
Proof.
  intros Hnew Hdepth after before depth processed.
  subst after before depth processed.
  rewrite water_tick_eq.
  cbn [fst snd request_queue_depth reservoir_level sleeps logger].
  pose proof (capacity_per_tick_eq active_scenario) as Hcap.
  set (cap := capacity_per_tick active_scenario) in *.
  set (arrived := request_queue_depth self + new_requests).
  assert (Hproc : arrived - (arrived - Z.min arrived cap) = Z.min arrived cap)
    by lia.
  assert (Hpos : 0 < Z.min arrived cap).
  { destruct (power_outage active_scenario); subst arrived; lia. }
  split; [lia|].
  split; [lia|].
  split.
  { intros Hno. rewrite Hno in Hcap. subst arrived. lia. }
  split.
  { intros Hout. rewrite Hout in Hcap. subst arrived. lia. }
  split; [apply py_clip_bounds|].
  assert (Hgt : (Z.min arrived cap >? 0) = true) by (apply Z.gtb_lt; lia).
  rewrite Hgt.
  split.
  { intros Hle.
    assert (Hb : (arrived - Z.min arrived cap >? 20) = false).
    { destruct (_ >? 20) eqn:Hb; [apply Z.gtb_lt in Hb; lia | reflexivity]. }
    rewrite Hb, !length_app. cbn. lia. }
  split.
  { intros Hlt.
    assert (Hb : (arrived - Z.min arrived cap >? 20) = true)
      by (apply Z.gtb_lt; lia).
    rewrite Hb. eexists. reflexivity. }
  eexists. split; [reflexivity|]. split; [reflexivity|].
  unfold Metrics.payload_of. cbn [Metrics.body]. rewrite Hproc. reflexivity.
Qed.

End WaterFacts.

Section Statistics.

Import Readings.

Context {T : Type}.

Implicit Types (b : BoundedBuffer T) (s : System T) (m : move T).

Lemma count_cons (p : observation T -> bool) (o : observation T)
      (os : list (observation T)) :
  count p (o :: os) = count1 p (Some o) + count p os.
Proof.
  unfold count, count1. cbn [filter]. destruct (p o); cbn [List.length]; lia.
Qed.

(** What one move adds to each counter. *)
Lemma sys_step_stats m s :
  let s' := fst (sys_step m s) in
  let o := snd (sys_step m s) in
  let st := stats (buf s) in
  let st' := stats (buf s') in
  puts st' = puts st + Z.of_nat (List.length (accepted_by o)) /\
  gets st' = gets st + Z.of_nat (List.length (delivered_by o)) /\
  waits_for_space st' = waits_for_space st + count1 producer_parked o /\
  waits_for_item st' = waits_for_item st + count1 consumer_parked o /\
  drop_count st' =
    drop_count st + (if _closed (buf s) then 0 else count1 turned_away o) /\
  (_closed (buf s) = true -> _closed (buf s') = true).
Proof.
  cbv zeta. destruct m as [t c | t success]; cbn [sys_step].
  - destruct (parked s t); cbn [fst snd accepted_by delivered_by count1].
    { destruct (_closed (buf s)); cbn; repeat split; auto; lia. }
    destruct c; cbn [fst snd settle buf]; unfold_sections;
      cbn [_closed set_op_counter set_stats set_buffer set_closed];
      split_sections;
      cbn; repeat split; auto; try lia; try discriminate.
  - destruct (parked s t) as [[item timeout n | timeout n]|];
      cbn [fst snd accepted_by delivered_by count1];
      try (destruct (_closed (buf s)); cbn; repeat split; auto; lia);
      destruct (may_resume timeout n success);
      cbn [fst snd accepted_by delivered_by count1];
      try (destruct (_closed (buf s)); cbn; repeat split; auto; lia);
      cbn [fst snd settle buf]; unfold_sections;
      cbn [_closed set_op_counter set_stats set_buffer set_closed];
      split_sections;
      cbn; repeat split; auto; try lia; try discriminate.
Qed.

Lemma sys_run_stats (ms : list (move T)) : forall s,
  let s' := fst (sys_run ms s) in
  let os := snd (sys_run ms s) in
  let st := stats (buf s) in
  let st' := stats (buf s') in
  puts st' = puts st + Z.of_nat (List.length (accepted os)) /\
  gets st' = gets st + Z.of_nat (List.length (delivered os)) /\
  waits_for_space st' = waits_for_space st + count producer_parked os /\
  waits_for_item st' = waits_for_item st + count consumer_parked os /\
  drop_count st <= drop_count st' <= drop_count st + count turned_away os /\
  (_closed (buf s') = false ->
     drop_count st' = drop_count st + count turned_away os) /\
  (_closed (buf s) = true -> _closed (buf s') = true).
Proof.
  induction ms as [|m ms IH]; intros s; cbv zeta.
  - cbn. unfold count. cbn. repeat split; auto; lia.
  - rewrite sys_run_cons. cbn [fst snd].
    destruct (sys_step_stats m s) as (Hp & Hg & Hws & Hwi & Hd & Hc).
    destruct (IH (fst (sys_step m s)))
      as (Hp' & Hg' & Hws' & Hwi' & Hd' & Hde' & Hc').
    cbv zeta in *.
    assert (Hone : forall p : observation T -> bool,
               0 <= count1 p (snd (sys_step m s)) <= 1).
    { intros p. unfold count1. destruct (snd (sys_step m s)) as [x|];
        [destruct (p x)|]; lia. }
    pose proof (Hone turned_away) as Hta.
    destruct (snd (sys_step m s)) as [x|] eqn:Hx;
      cbn [accepted_by delivered_by List.length] in *;
      [unfold accepted, delivered; cbn [flat_map];
       fold (accepted (snd (sys_run ms (fst (sys_step m s)))));
       fold (delivered (snd (sys_run ms (fst (sys_step m s)))));
       rewrite !length_app, !count_cons
      | change (count1 producer_parked None) with 0 in *;
        change (count1 consumer_parked None) with 0 in *;
        change (count1 turned_away None) with 0 in * ];
      (split; [lia|]); (split; [lia|]); (split; [lia|]); (split; [lia|]);
      (split; [destruct (_closed (buf s)); lia|]);
      (split; [|auto]);
      intros Hopen; specialize (Hde' Hopen);
      (destruct (_closed (buf s)) eqn:Hcs;
       [specialize (Hc eq_refl); specialize (Hc' Hc); congruence | lia]).
Qed.

(** X19.  The counters of [stats] tell the history of the buffer.  After
    every run of any threads on a fresh buffer: [puts] is the number of
    items accepted, [gets] the number handed out, [waits_for_space] the
    number of times a producer parked, [waits_for_item] the number of times
    a consumer parked; [drop_count] is at most the number of [try_put]
    calls turned away, and equal to it while the buffer is open. *)
Theorem stats_count_the_history (capacity : Z) (name : string)
        (ms : list (move T)) :
  let s := fst (sys_run ms (boot capacity name)) in
  let os := snd (sys_run ms (boot capacity name)) in
  let st := stats (buf s) in
  puts st = Z.of_nat (List.length (accepted os)) /\
  gets st = Z.of_nat (List.length (delivered os)) /\
  waits_for_space st = count producer_parked os /\
  waits_for_item st = count consumer_parked os /\
  0 <= drop_count st <= count turned_away os /\
  (_closed (buf s) = false -> drop_count st = count turned_away os).
Proof.
  cbv zeta.
  destruct (sys_run_stats ms (boot capacity name))
    as (Hp & Hg & Hws & Hwi & Hd & Hde & _).
  cbv zeta in *. cbn [boot buf init stats stats0 puts gets waits_for_space
                      waits_for_item drop_count] in *.
  repeat split; try lia. intros Hopen. specialize (Hde Hopen). lia.
Qed.

(** X20.  [close] releases every parked thread.  After a call of [close],
    the [wait] of each thread parked in [put] or [get] may return: the
    [put] then raises [ValueError]; the [get] hands out the oldest item if
    there is one and raises [StopIteration] if there is none; either way
    the thread is parked no longer. *)
Theorem close_releases_the_waiters (s : System T) (t u : tid)
        (w : waiter T) :
  parked s t = None -> parked s u = Some w ->
  let s1 := fst (sys_step (Call t c_close) s) in
  let woken := sys_step (Resume u true) s1 in
  parked (fst woken) u = None /\
  _closed (buf (fst woken)) = true /\
  snd woken =
    Some match w with
         | producer item _ _ =>
             ob_put u item (Raise (ValueError (closed_msg (buf s))))
         | consumer _ _ =>
             ob_get u match _buffer (buf s) with
                      | [] => Raise (StopIteration "Buffer closed and empty")
                      | item :: _ => Return (Some item)
                      end
         end.
Proof.
  intros Ht Hu. cbv zeta. cbn [sys_step]. rewrite Ht.
  cbn [fst snd settle parked buf close after signals].
  destruct (Nat.eqb_spec u t) as [-> | Hneq]; [congruence|].
  rewrite Hu. cbn [option_map].
  destruct w as [item timeout n | timeout n]; unfold deliver;
    cbn [waits_on signalled existsb cond_eqb orb may_resume];
    cbn [fst snd settle parked buf].
  - unfold put_wake. cbn [_closed set_closed]. cbn [ended after park_put].
    rewrite Nat.eqb_refl. auto.
  - unfold get_wake, get_loop. cbn [negb _closed _buffer set_closed].
    destruct (_buffer (buf s)) as [|item rest];
      cbn [ended after park_get set_stats set_buffer _closed];
      rewrite Nat.eqb_refl; auto.
Qed.

End Statistics.

(** * The theorems above at the sample values *)

Section SampleRuns.

Import Sim Writer Scenarios Subsystems Alone Readings Samples.

Lemma writer_pass_batch_witness :
  pending database = [] /\
  exists batch rest,
    Database._queue (logger writing) = map Some batch ++ rest /\
    committed (snd (fst (writer_pass dumps (logger writing) database))) =
      committed database ++ map (row_of dumps) batch.
Proof.
  split; [reflexivity|].
  destruct (writer_pass_batch dumps (logger writing) database eq_refl)
    as (batch & rest & Hq & _ & Hc & _).
  exists batch, rest. split; [exact Hq | exact Hc].
Defined.




Lemma run_loop_keeps_schedule_witness :
  (forall s (w : World unit),
     Base.interval (fst (Examples.reporting s w)) = Base.interval s /\
     Base.tick_count (fst (Examples.reporting s w)) = Base.tick_count s) /\
  exists passes : nat,
    (passes <= 3)%nat /\
    Base.tick_count
      (fst (fst (Base.run_loop Examples.reporting 3 Examples.traffic 2
                               Examples.world))) =
    Base.tick_count Examples.traffic + Z.of_nat passes.
Proof.
  assert (Hwork : forall s (w : World unit),
             Base.interval (fst (Examples.reporting s w)) = Base.interval s /\
             Base.tick_count (fst (Examples.reporting s w)) =
               Base.tick_count s).
  { intros s w. split; reflexivity. }
  split; [exact Hwork|].
  destruct (run_loop_keeps_schedule Examples.reporting 3 Hwork
              Examples.traffic 2 Examples.world)
    as (passes & Hle & Hcount & _).
  exists passes. split; [exact Hle | exact Hcount].
Defined.

Lemma tick_event_is_consistent_witness :
  let r := Base.run_iteration Examples.reporting Examples.traffic 2
                              Examples.world in
  exists (e : Metrics.LogEvent) (latency work_time : Q),
    tick_seq_of e = Some (Base.tick_count (fst (fst r))) /\
    latency_ms_of e = Some latency /\
    work_time_ms_of e = Some work_time /\
    (work_time <= latency)%Q.
Proof.
  intros r.
  destruct (tick_event_is_consistent Examples.reporting Examples.traffic 2
              Examples.world ltac:(vm_compute; discriminate))
    as (e & latency & work_time & _ & Hseq & Hl & Hw & Hle).
  exists e, latency, work_time. auto.
Defined.

Lemma toggles_keep_one_scenario_witness :
  let r := toggles ["PowerOutage"; "RushHour"]%string orchestrator
                   Examples.world in
  shared_scenario (fst r) = active_scenario (scenario_manager (fst r)) /\
  (active_scenario (scenario_manager (fst r)) = None \/
   active_scenario (scenario_manager (fst r)) = Some "RushHour"%string).
Proof.
  intros r.
  destruct (toggles_keep_one_scenario ["PowerOutage"; "RushHour"]%string
              orchestrator Examples.world ltac:(discriminate))
    as (Hshared & Hlast & _).
  split; [exact Hshared | exact Hlast].
Defined.

Lemma energy_tick_takes_the_oldest_witness :
  let after := energy_tick (ev_get_alone 1%nat) (Some "PowerOutage"%string)
                           (1 # 100) energy (around queue_of_two) in
  parked queue_of_two 1%nat = None /\
  [first; second] = [first] ++ _buffer (buf (env (snd after))) /\
  ev_load_mw (fst after) = (inject_Z 30 / 1000)%Q.
Proof.
  intros after. split; [reflexivity|].
  destruct (energy_tick_takes_the_oldest 1%nat (Some "PowerOutage"%string)
              (1 # 100) energy (around queue_of_two) eq_refl)
    as (Hq & _ & _ & Hload & _).
  split; [exact Hq | exact Hload].
Defined.

Lemma traffic_tick_fills_the_buffer_witness :
  let after := traffic_tick (ev_put_alone 0%nat) 7 (1 # 100) 3 draw traffic
                            (around empty_queue) in
  parked empty_queue 0%nat = None /\
  _closed (buf empty_queue) = false /\
  0 <= cars_on_road (fst after) <= 500 /\
  puts (stats (buf (env (snd after)))) = 2.
Proof.
  intros after. split; [reflexivity|]. split; [reflexivity|].
  destruct (traffic_tick_fills_the_buffer 0%nat 7 (1 # 100) 3 draw traffic
              (around empty_queue) eq_refl eq_refl)
    as (Hcars & _ & Hputs & _).
  split; [exact Hcars | exact Hputs].
Defined.

Lemma traffic_tick_on_closed_buffer_witness :
  let after := traffic_tick (ev_put_alone 0%nat) 7 (1 # 100) 3 draw traffic
                            (around closed_queue) in
  parked closed_queue 0%nat = None /\
  _closed (buf closed_queue) = true /\
  _buffer (buf (env (snd after))) = [first; second].
Proof.
  intros after. split; [reflexivity|]. split; [reflexivity|].
  exact (proj1 (traffic_tick_on_closed_buffer 0%nat 7 (1 # 100) 3 draw
                  traffic (around closed_queue) eq_refl eq_refl)).
Defined.

Lemma traffic_then_energy_witness :
  let w1 := snd (traffic_tick (ev_put_alone 0%nat) 7 (1 # 100) 3 draw traffic
                              (around empty_queue)) in
  let after := energy_tick (ev_get_alone 1%nat) (Some "PowerOutage"%string)
                           (1 # 100) energy w1 in
  parked empty_queue 0%nat = None /\
  parked empty_queue 1%nat = None /\
  List.length (_buffer (buf (env w1))) = 2%nat /\
  ev_load_mw (fst after) = (inject_Z 20 / 1000)%Q.
Proof.
  intros w1 after. split; [reflexivity|]. split; [reflexivity|].
  destruct (traffic_then_energy 0%nat 1%nat 7 (1 # 100) (1 # 100) 3 draw
              (Some "PowerOutage"%string) traffic energy (around empty_queue)
              eq_refl eq_refl eq_refl eq_refl)
    as (Hq & _ & Hload).
  split; [exact (f_equal (@List.length _) Hq) | exact Hload].
Defined.

Lemma water_tick_backlog_witness :
  let after := water_tick (Some "PowerOutage"%string) 5 (1 # 2) water
                          Examples.world in
  5 <= 5 <= 15 /\ 0 <= request_queue_depth water /\
  request_queue_depth (fst after) = 2 /\
  (0 <= reservoir_level (fst after) <= 100)%Q.
Proof.
  intros after.
  assert (Hnew : 5 <= 5 <= 15) by lia.
  assert (Hdepth : 0 <= request_queue_depth water) by (vm_compute; discriminate).
  split; [exact Hnew|]. split; [exact Hdepth|].
  destruct (water_tick_backlog (Some "PowerOutage"%string) 5 (1 # 2) water
              Examples.world Hnew Hdepth)
    as (_ & _ & _ & Hout & Hlevel & _).
  split; [|exact Hlevel].
  destruct (Hout eq_refl) as (Hthree & _).
  change (request_queue_depth water) with 0 in Hthree.
  fold after in Hthree. lia.
Defined.

Lemma close_releases_the_waiters_witness :
  let s1 := fst (sys_step (Call 3%nat c_close) with_parked_producer) in
  parked with_parked_producer 3%nat = None /\
  parked with_parked_producer 1%nat = Some (producer 20 None false) /\
  snd (sys_step (Resume 1%nat true) s1) =
    Some (ob_put 1%nat 20
            (Raise (ValueError "Buffer EV_Charging_Queue is closed"))).
Proof.
  intros s1. split; [reflexivity|]. split; [reflexivity|].
  exact (proj2 (proj2 (close_releases_the_waiters with_parked_producer
                         3%nat 1%nat (producer 20 None false)
                         eq_refl eq_refl))).
Defined.

End SampleRuns.
